(** * The response-normalization pipeline of [server.js]

    A shallow embedding of the four functions of [server.js] that turn
    the model's reply into a structured record, and the properties of
    them that the specification states:

    - [parseClaudeResponse]      (Marker-Based Section Splitter)
    - [itemsToOutline]           (Outline Renderer)
    - [normalizeItemForFrontend] (Item Normalizer)
    - [parseAIResponse]          (Structured Response Parser)

    JavaScript strings are sequences of UTF-16 code units; they are
    modelled as lists of code units, so that [length], [indexOf] and
    [slice] count what the runtime counts. *)

From Stdlib Require Import List NArith ZArith Lia Bool String Ascii.
Import ListNotations.

Set Implicit Arguments.
Set Warnings "-register-all,-notation-for-abbreviation".

(* ================================================================== *)
(** ** JavaScript strings *)

Module Str.

Definition jsstring := list N.

(** *** Literals

    A Rocq string literal holds the UTF-8 bytes of its text;
    [utf16] decodes them to the code units the same literal has in the
    JavaScript source. *)

Local Open Scope N_scope.

Definition cont (b : N) : N := N.land b 0x3F.

Fixpoint utf16_of_utf8 (bs : list N) : jsstring :=
  match bs with
  | [] => []
  | b0 :: r0 =>
    if b0 <? 0x80 then b0 :: utf16_of_utf8 r0
    else
      match r0 with
      | [] => []
      | b1 :: r1 =>
        if b0 <? 0xE0 then
          N.lor (N.shiftl (N.land b0 0x1F) 6) (cont b1) :: utf16_of_utf8 r1
        else
          match r1 with
          | [] => []
          | b2 :: r2 =>
            if b0 <? 0xF0 then
              N.lor (N.shiftl (N.land b0 0x0F) 12)
                    (N.lor (N.shiftl (cont b1) 6) (cont b2))
                :: utf16_of_utf8 r2
            else
              match r2 with
              | [] => []
              | b3 :: r3 =>
                let cp := N.lor (N.shiftl (N.land b0 0x07) 18)
                            (N.lor (N.shiftl (cont b1) 12)
                               (N.lor (N.shiftl (cont b2) 6) (cont b3))) in
                let v := cp - 0x10000 in
                (0xD800 + N.shiftr v 10) :: (0xDC00 + N.land v 0x3FF)
                  :: utf16_of_utf8 r3
              end
          end
      end
  end.

Definition utf16 (s : string) : jsstring :=
  utf16_of_utf8 (map N_of_ascii (list_ascii_of_string s)).

(** Escapes of the literals below: [\n] is a line feed, as in the
    source; an apostrophe stands for the double quote, which the
    literals of JSON text need. *)
Fixpoint unescape (s : jsstring) : jsstring :=
  match s with
  | [] => []
  | c :: r =>
    if c =? 0x27 then 0x22 :: unescape r
    else if c =? 0x5C then
      match r with
      | d :: r' => if d =? 0x6E then 0x0A :: unescape r' else c :: unescape r
      | [] => [c]
      end
    else c :: unescape r
  end.

Definition js (s : string) : jsstring := unescape (utf16 s).

(** *** [String.prototype.trim] and the class [\s] of regular expressions

    Both use WhiteSpace and LineTerminator of ECMAScript. *)
Definition isWhiteSpace (c : N) : bool :=
  ((0x09 <=? c) && (c <=? 0x0D))
  || (c =? 0x20) || (c =? 0xA0) || (c =? 0x1680)
  || ((0x2000 <=? c) && (c <=? 0x200A))
  || (c =? 0x2028) || (c =? 0x2029) || (c =? 0x202F)
  || (c =? 0x205F) || (c =? 0x3000) || (c =? 0xFEFF).

Fixpoint trimStart (s : jsstring) : jsstring :=
  match s with
  | [] => []
  | c :: r => if isWhiteSpace c then trimStart r else s
  end.

Definition trimEnd (s : jsstring) : jsstring := rev (trimStart (rev s)).

Definition trim (s : jsstring) : jsstring := trimEnd (trimStart s).

(** *** [length], [indexOf], [slice], [join] *)

Definition len (s : jsstring) : Z := Z.of_nat (List.length s).

Fixpoint startsWith (m s : jsstring) : bool :=
  match m, s with
  | [], _ => true
  | _ :: _, [] => false
  | a :: m', b :: s' => (a =? b) && startsWith m' s'
  end.

Local Open Scope Z_scope.

(** [indexOfFrom m s i]: the index of the first occurrence of [m] in
    [s], counted from [i]; [-1] when there is none. *)
Fixpoint indexOfFrom (m s : jsstring) (i : Z) : Z :=
  if startsWith m s then i
  else match s with
       | [] => -1
       | _ :: s' => indexOfFrom m s' (i + 1)
       end.

Definition indexOf (s m : jsstring) : Z := indexOfFrom m s 0.

(** An argument of [slice] relative to the length: negative ones count
    from the end, and both are clamped to [0 .. len]. *)
Definition relIndex (n k : Z) : Z :=
  if k <? 0 then Z.max (n + k) 0 else Z.min k n.

Definition slice (s : jsstring) (start end_ : Z) : jsstring :=
  let from := relIndex (len s) start in
  let to := relIndex (len s) end_ in
  firstn (Z.to_nat (to - from)) (skipn (Z.to_nat from) s).

(** [s.slice(start)] *)
Definition sliceFrom (s : jsstring) (start : Z) : jsstring :=
  slice s start (len s).

Fixpoint join (sep : jsstring) (l : list jsstring) : jsstring :=
  match l with
  | [] => []
  | [x] => x
  | x :: r => x ++ sep ++ join sep r
  end.

Fixpoint eqb (a b : jsstring) : bool :=
  match a, b with
  | [], [] => true
  | x :: a', y :: b' => N.eqb x y && eqb a' b'
  | _, _ => false
  end.

End Str.

Import Str.

(* ================================================================== *)
(** ** Marker-Based Section Splitter: [parseClaudeResponse] *)

Local Open Scope Z_scope.

Definition openMarker : jsstring := utf16 "【开场白】".
Definition outlineMarker : jsstring := utf16 "【大纲】".

Definition altMarkers : list jsstring :=
  [utf16 "大纲："; utf16 "## 大纲"; utf16 "## 内容大纲"; js "\n- "; js "\n* "].

Record Sections := mkSections { sec_outline : jsstring; sec_opening : jsstring }.

Definition sliceSection (text : jsstring) (startIdx markerLen untilIdx : Z)
  : jsstring :=
  if startIdx =? -1 then []
  else
    let start := startIdx + markerLen in
    let end_ := if untilIdx =? -1 then len text else untilIdx in
    trim (slice text start end_).

(** The loop over [altMarkers]: the first cue of the list that occurs
    in [outline] cuts it, and the loop stops there. *)
Fixpoint cutAtAltMarker (ms : list jsstring) (outline : jsstring) : jsstring :=
  match ms with
  | [] => outline
  | m :: ms' =>
    let i := indexOf outline m in
    if negb (i =? -1) then trim (sliceFrom outline (i + len m))
    else cutAtAltMarker ms' outline
  end.

Definition parseClaudeResponse (text : jsstring) : Sections :=
  let openIdx := indexOf text openMarker in
  let outlineIdx := indexOf text outlineMarker in
  if negb (openIdx =? -1) && negb (outlineIdx =? -1) then
    {| sec_opening :=
         sliceSection text openIdx (len openMarker)
           (if outlineIdx >? openIdx then outlineIdx else -1);
       sec_outline :=
         sliceSection text outlineIdx (len outlineMarker)
           (if openIdx >? outlineIdx then openIdx else -1) |}
  else if negb (openIdx =? -1) then
    {| sec_opening := sliceSection text openIdx (len openMarker) (-1);
       sec_outline := cutAtAltMarker altMarkers (trim (slice text 0 openIdx)) |}
  else if negb (outlineIdx =? -1) then
    {| sec_opening := [];
       sec_outline := sliceSection text outlineIdx (len outlineMarker) (-1) |}
  else
    let half := len text / 2 in
    {| sec_opening := trim text;
       sec_outline := trim (slice text 0 half) |}.

(* ================================================================== *)
(** ** Values of the runtime *)

(** The values the pipeline sees: what [JSON.parse] produces, and
    [undefined].  Numbers are IEEE doubles in the runtime; the pipeline
    only converts them to strings and tests them for truth, so their
    type and these two operations are left to the [Runtime] below.
    An object is the list of its own properties, in insertion order. *)
Inductive value (number : Type) : Type :=
| VUndefined
| VNull
| VBool (b : bool)
| VNum (n : number)
| VStr (s : jsstring)
| VArr (elems : list (value number))
| VObj (props : list (jsstring * value number)).

Arguments VUndefined {number}.
Arguments VNull {number}.
Arguments VBool {number} b.
Arguments VStr {number} s.
Arguments VArr {number} elems.
Arguments VObj {number} props.

(** What the pipeline takes from its host: the number operations and
    the built-in [JSON.parse] ([None]: it throws a SyntaxError). *)
Class Runtime (number : Type) := {
  Number_toString : number -> jsstring;
  Number_toBoolean : number -> bool;
  JSON_parse : jsstring -> option (value number)
}.

(** Computations that may throw: [None] is a thrown exception. *)
Definition M (A : Type) : Type := option A.
Definition ret {A} (a : A) : M A := Some a.
Definition throw {A} : M A := None.

Notation "x <- e ;; k" := (match e with Some x => k | None => None end)
  (at level 61, e at next level, right associativity).

(** [try { body } catch (_) { handler }] *)
Definition try_catch {A} (body : M A) (handler : M A) : M A :=
  match body with
  | Some a => Some a
  | None => handler
  end.

Fixpoint mapM {A B} (f : A -> M B) (l : list A) : M (list B) :=
  match l with
  | [] => ret []
  | x :: r => y <- f x ;; ys <- mapM f r ;; ret (y :: ys)
  end.

Inductive jstype := TUndefined | TObject | TBoolean | TNumber | TString.

Definition isString (t : jstype) : bool :=
  match t with TString => true | _ => false end.

Definition isObject (t : jstype) : bool :=
  match t with TObject => true | _ => false end.

Fixpoint lookup {A} (k : jsstring) (props : list (jsstring * A)) : option A :=
  match props with
  | [] => None
  | (k', v) :: r => if Str.eqb k k' then Some v else lookup k r
  end.

(** Setting the own property [k]: a key that is there keeps its place
    and takes the new value, a new key goes last. *)
Fixpoint setProp {A} (k : jsstring) (v : A) (props : list (jsstring * A))
  : list (jsstring * A) :=
  match props with
  | [] => [(k, v)]
  | (k', v') :: r =>
    if Str.eqb k k' then (k, v) :: r else (k', v') :: setProp k v r
  end.

Section Pipeline.

Context {number : Type} {R : Runtime number}.

Local Notation value := (value number) (only parsing).

Definition typeof (v : value) : jstype :=
  match v with
  | VUndefined => TUndefined
  | VNull => TObject
  | VBool _ => TBoolean
  | VNum _ => TNumber
  | VStr _ => TString
  | VArr _ | VObj _ => TObject
  end.

Definition ToBoolean (v : value) : bool :=
  match v with
  | VUndefined | VNull => false
  | VBool b => b
  | VNum n => Number_toBoolean n
  | VStr s => negb (Str.eqb s [])
  | VArr _ | VObj _ => true
  end.

(** [v == null] *)
Definition isNullish (v : value) : bool :=
  match v with
  | VUndefined | VNull => true
  | _ => false
  end.

Definition Array_isArray (v : value) : bool :=
  match v with VArr _ => true | _ => false end.

Definition elements (v : value) : list value :=
  match v with VArr l => l | _ => [] end.

(** [v.length] of an array *)
Definition arrayLength (v : value) : Z := Z.of_nat (List.length (elements v)).

(** The string a value of type string holds. *)
Definition stringOf (v : value) : jsstring :=
  match v with VStr s => s | _ => [] end.

(** [v.k], for the property names the pipeline reads: none of them is
    an index, [length], or a name the prototypes define, so the result
    is the own property of an object, and [undefined] otherwise.  The
    source never reads a property of [null] or [undefined]. *)
Definition Get (v : value) (k : jsstring) : value :=
  match v with
  | VObj props => match lookup k props with Some x => x | None => VUndefined end
  | _ => VUndefined
  end.

(** [a ?? b] *)
Definition coalesce (a b : value) : value := if isNullish a then b else a.

(** [String(v)].  An array is joined with commas, [null] and
    [undefined] elements giving the empty string.  A plain object gives
    [[object Object]] through [Object.prototype.toString]; an own
    property [toString] hides that method and, being data, is not
    callable, and [valueOf] returns the object itself: a TypeError. *)
Fixpoint ToString (v : value) : M jsstring :=
  match v with
  | VUndefined => ret (utf16 "undefined")
  | VNull => ret (utf16 "null")
  | VBool true => ret (utf16 "true")
  | VBool false => ret (utf16 "false")
  | VNum n => ret (Number_toString n)
  | VStr s => ret s
  | VArr l =>
    ss <- (fix each (l : list value) : M (list jsstring) :=
             match l with
             | [] => ret []
             | x :: r =>
               s <- (if isNullish x then ret [] else ToString x) ;;
               ss <- each r ;;
               ret (s :: ss)
             end) l ;;
    ret (join (utf16 ",") ss)
  | VObj props =>
    match lookup (utf16 "toString") props with
    | Some _ => throw
    | None => ret (utf16 "[object Object]")
    end
  end.

(* ================================================================== *)
(** ** Outline Renderer: [itemsToOutline] *)

(** The callback of [items.map]. *)
Definition itemLine (item : value) : M jsstring :=
  text <- (if isString (typeof item) then ret item
           else if ToBoolean item && isObject (typeof item)
                   && negb (isNullish (Get item (utf16 "text")))
                then ret (Get item (utf16 "text"))
                else s <- ToString item ;; ret (VStr s)) ;;
  s <- ToString text ;;
  ret (utf16 "- " ++ trim s).

Definition itemsToOutline (items : value) : M jsstring :=
  if negb (Array_isArray items) || (arrayLength items =? 0) then ret []
  else lines <- mapM itemLine (elements items) ;; ret (join (js "\n") lines).

(* ================================================================== *)
(** ** Item Normalizer: [normalizeItemForFrontend] *)

Record Card := mkCard { text : jsstring }.

Definition key_core : jsstring := utf16 "核心金句".
Definition key_logic : jsstring := utf16 "逻辑拆解".
Definition key_insight : jsstring := utf16 "互动建议".

(** [item[native] ?? item.alias ?? ''] *)
Definition fieldOf (native alias : jsstring) (item : value) : value :=
  coalesce (coalesce (Get item native) (Get item alias)) (VStr []).

(** [if (v) parts.push(String(v).trim())] *)
Definition pushPart (v : value) (parts : list jsstring) : M (list jsstring) :=
  if ToBoolean v then s <- ToString v ;; ret (parts ++ [trim s]) else ret parts.

Definition normalizeItemForFrontend (item : value) : M Card :=
  if isNullish item then ret {| text := [] |}
  else if isString (typeof item) then ret {| text := trim (stringOf item) |}
  else if negb (isObject (typeof item)) then
    s <- ToString item ;; ret {| text := s |}
  else if negb (isNullish (Get item (utf16 "text")))
          && isString (typeof (Get item (utf16 "text"))) then
    ret {| text := trim (stringOf (Get item (utf16 "text"))) |}
  else
    let core := fieldOf key_core (utf16 "core") item in
    let logic := fieldOf key_logic (utf16 "logic") item in
    let insight := fieldOf key_insight (utf16 "insight") item in
    parts <- pushPart core [] ;;
    parts <- pushPart logic parts ;;
    parts <- pushPart insight parts ;;
    ret {| text := join (js "\n") parts |}.

(* ================================================================== *)
(** ** Structured Response Parser: [parseAIResponse] *)

Record ParsedResponse := mkParsed {
  outline : jsstring;
  opening : jsstring;
  items : value;
  visualCode : value
}.

Definition tick : N := 0x60%N.
Definition fence : jsstring := [tick; tick; tick].

(** Case-insensitive matching of a pattern of ASCII letters: without
    the [u] flag a code unit matches the letter when its upper case is
    the letter's, and no code unit above 127 is mapped into ASCII. *)
Definition upper (c : N) : N :=
  if ((0x61 <=? c) && (c <=? 0x7A))%N then (c - 32)%N else c.

Fixpoint startsWithCI (m s : jsstring) : bool :=
  match m, s with
  | [], _ => true
  | _ :: _, [] => false
  | a :: m', b :: s' => (upper a =? upper b)%N && startsWithCI m' s'
  end.

(** [s.replace(/^```(?:json)?\s*/i, '')] *)
Definition stripFenceOpen (s : jsstring) : jsstring :=
  if startsWith fence s then
    let r := skipn 3 s in
    let r := if startsWithCI (utf16 "json") r then skipn 4 r else r in
    trimStart r
  else s.

(** [s.replace(/\s*```$/, '')]: the match is the closing fence at the
    very end with all the white space before it. *)
Definition stripFenceClose (s : jsstring) : jsstring :=
  match rev s with
  | a :: b :: c :: r =>
    if ((a =? tick) && (b =? tick) && (c =? tick))%N then rev (trimStart r)
    else s
  | _ => s
  end.

Definition stripFence (raw : jsstring) : jsstring :=
  trim (stripFenceClose (stripFenceOpen raw)).

(** [typeof obj.outline === 'string'] and the value assigned then. *)
Definition outlineField (obj : value) : jsstring :=
  if isString (typeof (Get obj (utf16 "outline")))
  then stringOf (Get obj (utf16 "outline")) else [].

(** [Array.isArray(obj.items) && obj.items.length > 0] *)
Definition hasItems (obj : value) : bool :=
  Array_isArray (Get obj (utf16 "items"))
  && (arrayLength (Get obj (utf16 "items")) >? 0).

(** The right-hand side of the assignment to [opening]. *)
Definition openingField (obj : value) : jsstring :=
  if isString (typeof (Get obj (utf16 "summary")))
  then stringOf (Get obj (utf16 "summary"))
  else if isString (typeof (Get obj (utf16 "opening")))
       then stringOf (Get obj (utf16 "opening")) else [].

(** The statement that sets [visualCode]. *)
Definition visualCodeField (obj : value) : M value :=
  if negb (isNullish (Get obj (utf16 "visualCode"))) then
    s <- ToString (Get obj (utf16 "visualCode")) ;;
    if negb (Str.eqb (trim s) []) then
      s' <- ToString (Get obj (utf16 "visualCode")) ;; ret (VStr (trim s'))
    else ret VNull
  else ret VNull.

(** The body of [if (obj) { ... }], from the initial values of the
    four variables to their final ones. *)
Definition readObject (obj : value) : M ParsedResponse :=
  let outline := outlineField obj in
  r <- (if hasItems obj
        then o <- itemsToOutline (Get obj (utf16 "items")) ;;
             ret (Get obj (utf16 "items"), o)
        else ret (VNull, outline)) ;;
  let opening := openingField obj in
  visualCode <- visualCodeField obj ;;
  ret {| outline := snd r; opening := opening; items := fst r;
         visualCode := visualCode |}.

(** The [try] block: [Some] of the record it returns, [None] when it
    falls through to the code after it. *)
Definition tryBlock (jsonStr : jsstring) : M (option ParsedResponse) :=
  obj <- JSON_parse jsonStr ;;
  r <- (if ToBoolean obj then readObject obj
        else ret {| outline := []; opening := []; items := VNull;
                    visualCode := VNull |}) ;;
  if negb (Str.eqb (outline r) []) || negb (Str.eqb (opening r) [])
     || ToBoolean (items r)
  then ret (Some r) else ret None.

(** The code after the [try] statement. *)
Definition fallback (raw : jsstring) : ParsedResponse :=
  let s := parseClaudeResponse raw in
  {| outline := sec_outline s; opening := sec_opening s; items := VNull;
     visualCode := VNull |}.

(** The reply is a string here, for which [text || ''] is [text]. *)
Definition parseAIResponse (text : jsstring) : M ParsedResponse :=
  let raw := trim text in
  let jsonStr := stripFence raw in
  r <- try_catch (tryBlock jsonStr) (ret None) ;;
  match r with
  | Some res => ret res
  | None => ret (fallback raw)
  end.

(* ================================================================== *)
(** ** The caller: the handler of [POST /api/claude] *)

(** [a || b] *)
Definition orElse (a b : value) : value := if ToBoolean a then a else b.

(** The object the handler sends; [res_items] is [None] for
    [undefined]. *)
Record JsonResponse := mkJsonResponse {
  res_outline : jsstring;
  res_opening : jsstring;
  res_items : option (list Card);
  res_visualCode : value
}.

(** The lines of the handler from the call of [parseAIResponse] to
    the object [jsonResponse]; an exception here leaves the [try] block
    of the handler, which answers with status 500.  [outline] and
    [opening] are strings in [ParsedResponse], so the two [typeof]
    tests of the source hold. *)
Definition jsonResponse (reply : jsstring) : M JsonResponse :=
  r <- parseAIResponse reply ;;
  normalizedItems <-
    (if Array_isArray (items r) && (arrayLength (items r) >? 0)
     then cards <- mapM normalizeItemForFrontend (elements (items r)) ;;
          ret (Some cards)
     else ret None) ;;
  outlineStr <-
    match normalizedItems with
    | Some cards => itemsToOutline (VArr (map (fun x => VStr (text x)) cards))
    | None => ret (outline r)
    end ;;
  ret {| res_outline := outlineStr; res_opening := opening r;
         res_items := normalizedItems;
         res_visualCode := orElse (visualCode r) (VStr []) |}.

(* ================================================================== *)
(** ** The upstream callers: [refineWithDeepSeek], [refineWithOllama]

    Of the two functions, what follows the answer of [fetch]: [ok] is
    [res.ok] and [data] the value [res.json()] resolves to.  Sending
    the request, and a [fetch] or a [res.json()] that rejects, are
    outside. *)

(** [s.replace(/\/$/, '')] *)
Definition stripSlash (s : jsstring) : jsstring :=
  match rev s with
  | c :: r => if (c =? 0x2F)%N then rev r else s
  | [] => s
  end.

(** The address [refineWithDeepSeek] posts to, for the configured
    base. *)
Definition deepSeekUrl (base : jsstring) : jsstring :=
  stripSlash base ++ utf16 "/v1/chat/completions".

(** [v[0]], for a [v] that is neither null nor undefined: the first
    element of an array, the first code unit of a string, the own
    property [0] of an object. *)
Definition index0 (v : value) : value :=
  match v with
  | VArr (x :: _) => x
  | VStr (c :: _) => VStr [c]
  | VObj props =>
    match lookup (utf16 "0") props with Some x => x | None => VUndefined end
  | _ => VUndefined
  end.

(** [a?.f]: [undefined] when [a] is null or undefined. *)
Definition optChain (a : value) (f : value -> value) : value :=
  if isNullish a then VUndefined else f a.

(** [v.trim()]: only strings have the method. *)
Definition trimOf (v : value) : M jsstring :=
  match v with
  | VStr s => ret (trim s)
  | _ => throw
  end.

(** [data.choices?.[0]?.message?.content] *)
Definition deepSeekContent (data : value) : value :=
  optChain
    (optChain (optChain (Get data (utf16 "choices")) index0)
       (fun e => Get e (utf16 "message")))
    (fun m => Get m (utf16 "content")).

Definition refineWithDeepSeek (ok : bool) (data : value) : M jsstring :=
  if negb ok then throw
  else if isNullish data then throw
  else
    text <- trimOf (orElse (deepSeekContent data) (VStr [])) ;;
    if Str.eqb text [] then throw else ret text.

Definition refineWithOllama (ok : bool) (data : value) : M jsstring :=
  if negb ok then throw
  else if isNullish data then throw
  else
    text <- trimOf (orElse (Get data (utf16 "response")) (VStr [])) ;;
    if Str.eqb text [] then throw else ret text.

(* ================================================================== *)
(** ** The vocabulary of the properties

    What follows is not code of [server.js]: it words the properties
    that the specification states of it. *)

(** The decoded value leaves [outline], [opening] and [items] at their
    initial, empty values. *)
Definition yieldsNothing (obj : value) : bool :=
  negb (ToBoolean obj)
  || (Str.eqb (outlineField obj) [] && Str.eqb (openingField obj) []
      && negb (hasItems obj)).

(** A reply that wraps [body] in a code fence: the opening fence, a
    tag, white space, the body, white space, the closing fence. *)
Definition fenced (tag ws1 body ws2 : jsstring) : jsstring :=
  fence ++ tag ++ ws1 ++ body ++ ws2 ++ fence.

(** The tag [json], in any mix of cases. *)
Definition isJsonTag (tag : jsstring) : bool :=
  Str.eqb (map upper tag) (utf16 "JSON").

(** The text of one element as the specification words it: the element
    itself if it is a string, its [text] field if it is an object
    exposing a string [text] field, its string coercion otherwise. *)
Definition elementText_spec (item : value) : M jsstring :=
  match item with
  | VStr s => ret s
  | VObj props =>
    match lookup (utf16 "text") props with
    | Some (VStr t) => ret t
    | _ => ToString item
    end
  | _ => ToString item
  end.

(** The same with the [text] field taken, and coerced to a string,
    whenever it is neither [null] nor [undefined]. *)
Definition elementText (item : value) : M jsstring :=
  match item with
  | VStr s => ret s
  | VObj props =>
    match lookup (utf16 "text") props with
    | Some t => if isNullish t then ToString item else ToString t
    | None => ToString item
    end
  | _ => ToString item
  end.

(** The Outline Renderer over a reading [f] of the elements: nothing
    for a non-array or an empty array, else one trimmed, bulleted line
    per element, in order, joined by line feeds. *)
Definition render (f : value -> M jsstring) (items : value) : M jsstring :=
  match items with
  | VArr (x :: l) =>
    ss <- mapM f (x :: l) ;;
    ret (join (js "\n") (map (fun s => utf16 "- " ++ trim s) ss))
  | _ => ret []
  end.


(** The three values the Item Normalizer reads from a domain record. *)
Definition domainFields (item : value) : list value :=
  [ fieldOf key_core (utf16 "core") item;
    fieldOf key_logic (utf16 "logic") item;
    fieldOf key_insight (utf16 "insight") item ].

(** A field of a domain record, in words: the value under the native
    key when there is one that is neither null nor undefined;
    otherwise the value under the English alias, on the same
    condition; otherwise the empty string. *)
Definition readField (native alias : jsstring) (item : value) : value :=
  match item with
  | VObj props =>
    match lookup native props with
    | Some VUndefined | Some VNull | None =>
      match lookup alias props with
      | Some VUndefined | Some VNull | None => VStr []
      | Some w => w
      end
    | Some v => v
    end
  | _ => VStr []
  end.

Definition coreOf (item : value) : value := readField key_core (utf16 "core") item.
Definition logicOf (item : value) : value := readField key_logic (utf16 "logic") item.
Definition insightOf (item : value) : value :=
  readField key_insight (utf16 "insight") item.

Definition nonEmpty (s : jsstring) : bool := negb (Str.eqb s []).

(** The text of a domain record as the specification words it: the
    three fields in the order core, logic, insight, each trimmed, the
    empty ones left out so that no empty line stands for them, joined
    by a line feed. *)
Definition domainText_claim (item : value) : M jsstring :=
  ss <- mapM ToString [coreOf item; logicOf item; insightOf item] ;;
  ret (join (js "\n") (filter nonEmpty (map trim ss))).

(** The text of a domain record as the code makes it: a field is taken
    when it is true for the runtime (so not when it is missing, null,
    the empty string, zero or false), before it is coerced and trimmed;
    a field taken this way whose trimmed text is empty stays as an
    empty line. *)
Definition domainText (item : value) : M jsstring :=
  ss <- mapM ToString
          (filter ToBoolean [coreOf item; logicOf item; insightOf item]) ;;
  ret (join (js "\n") (map trim ss)).

End Pipeline.

(* ================================================================== *)
(** ** A concrete runtime

    For running the pipeline on concrete replies: a decoder of the
    JSON grammar whose numbers are the integer literals of at most 15
    digits (the runtime holds them exactly and prints them in plain
    decimal); a text with any other number literal is outside this
    decoder and is rejected.  The general theorems hold for every
    [Runtime] and do not depend on it. *)

Module JSON.

Local Open Scope N_scope.

Definition isJsonWs (c : N) : bool :=
  (c =? 0x20) || (c =? 0x09) || (c =? 0x0A) || (c =? 0x0D).

Fixpoint skipWs (s : jsstring) : jsstring :=
  match s with
  | [] => []
  | c :: r => if isJsonWs c then skipWs r else s
  end.

Definition hexVal (c : N) : option N :=
  if (0x30 <=? c) && (c <=? 0x39) then Some (c - 0x30)
  else if (0x41 <=? c) && (c <=? 0x46) then Some (c - 0x41 + 10)
  else if (0x61 <=? c) && (c <=? 0x66) then Some (c - 0x61 + 10)
  else None.

Definition simpleEscape (c : N) : option N :=
  if c =? 0x22 then Some 0x22
  else if c =? 0x5C then Some 0x5C
  else if c =? 0x2F then Some 0x2F
  else if c =? 0x62 then Some 0x08
  else if c =? 0x66 then Some 0x0C
  else if c =? 0x6E then Some 0x0A
  else if c =? 0x72 then Some 0x0D
  else if c =? 0x74 then Some 0x09
  else None.

(** The characters of a string literal after its opening quote, up to
    the closing one; [acc] holds the decoded ones, last first. *)
Fixpoint parseChars (s acc : jsstring) : option (jsstring * jsstring) :=
  match s with
  | [] => None
  | c :: r =>
    if c =? 0x22 then Some (rev acc, r)
    else if c <? 0x20 then None
    else if c =? 0x5C then
      match r with
      | [] => None
      | e :: r1 =>
        if e =? 0x75 then
          match r1 with
          | h1 :: h2 :: h3 :: h4 :: r2 =>
            match hexVal h1, hexVal h2, hexVal h3, hexVal h4 with
            | Some a, Some b, Some c', Some d =>
              parseChars r2 (((a * 16 + b) * 16 + c') * 16 + d :: acc)
            | _, _, _, _ => None
            end
          | _ => None
          end
        else
          match simpleEscape e with
          | Some x => parseChars r1 (x :: acc)
          | None => None
          end
      end
    else parseChars r (c :: acc)
  end.

Definition isDigit (c : N) : bool := (0x30 <=? c) && (c <=? 0x39).

Fixpoint parseDigits (s : jsstring) (acc : N) (count : nat) : N * nat * jsstring :=
  match s with
  | c :: r => if isDigit c then parseDigits r (acc * 10 + (c - 0x30)) (S count)
              else (acc, count, s)
  | [] => (acc, count, s)
  end.

(** An integer literal: [0], or a non-zero digit and more digits. *)
Definition parseNat (s : jsstring) : option (N * jsstring) :=
  match s with
  | c :: r =>
    if c =? 0x30 then Some (0, r)
    else if isDigit c then
      let '(n, count, rest) := parseDigits s 0 0%nat in
      if (count <=? 15)%nat then Some (n, rest) else None
    else None
  | [] => None
  end.

Definition startsFraction (s : jsstring) : bool :=
  match s with
  | c :: _ => (c =? 0x2E) || (c =? 0x65) || (c =? 0x45)
  | [] => false
  end.

Definition parseNumber (s : jsstring) : option (Z * jsstring) :=
  let '(neg, s') := match s with
                    | c :: r => if c =? 0x2D then (true, r) else (false, s)
                    | [] => (false, s)
                    end in
  match parseNat s' with
  | Some (n, rest) =>
    if startsFraction rest then None
    else Some (if neg then Z.opp (Z.of_N n) else Z.of_N n, rest)
  | None => None
  end.

Definition literal (name : string) (v : value Z) (s : jsstring)
  : option (value Z * jsstring) :=
  if startsWith (utf16 name) s
  then Some (v, skipn (List.length (utf16 name)) s) else None.

Fixpoint parseValue (fuel : nat) (s : jsstring) {struct fuel}
  : option (value Z * jsstring) :=
  match fuel with
  | O => None
  | S f =>
    match skipWs s with
    | [] => None
    | c :: r =>
      if c =? 0x22 then
        match parseChars r [] with
        | Some (str, rest) => Some (VStr str, rest)
        | None => None
        end
      else if c =? 0x5B then
        match skipWs r with
        | d :: r' => if d =? 0x5D then Some (VArr [], r') else parseElems f r []
        | [] => None
        end
      else if c =? 0x7B then
        match skipWs r with
        | d :: r' => if d =? 0x7D then Some (VObj [], r') else parseMembers f r []
        | [] => None
        end
      else if c =? 0x74 then literal "true" (VBool true) (c :: r)
      else if c =? 0x66 then literal "false" (VBool false) (c :: r)
      else if c =? 0x6E then literal "null" VNull (c :: r)
      else
        match parseNumber (c :: r) with
        | Some (z, rest) => Some (VNum z, rest)
        | None => None
        end
    end
  end
with parseElems (fuel : nat) (s : jsstring) (acc : list (value Z)) {struct fuel}
  : option (value Z * jsstring) :=
  match fuel with
  | O => None
  | S f =>
    match parseValue f s with
    | Some (v, rest) =>
      match skipWs rest with
      | c :: r =>
        if c =? 0x2C then parseElems f r (v :: acc)
        else if c =? 0x5D then Some (VArr (rev (v :: acc)), r)
        else None
      | [] => None
      end
    | None => None
    end
  end
with parseMembers (fuel : nat) (s : jsstring) (acc : list (jsstring * value Z))
       {struct fuel} : option (value Z * jsstring) :=
  match fuel with
  | O => None
  | S f =>
    match skipWs s with
    | q :: r0 =>
      if q =? 0x22 then
        match parseChars r0 [] with
        | Some (k, r1) =>
          match skipWs r1 with
          | colon :: r2 =>
            if colon =? 0x3A then
              match parseValue f r2 with
              | Some (v, rest) =>
                match skipWs rest with
                | c :: r =>
                  if c =? 0x2C then parseMembers f r (setProp k v acc)
                  else if c =? 0x7D then Some (VObj (setProp k v acc), r)
                  else None
                | [] => None
                end
              | None => None
              end
            else None
          | [] => None
          end
        | None => None
        end
      else None
    | [] => None
    end
  end.

Definition parse (s : jsstring) : option (value Z) :=
  match parseValue (2 * List.length s + 2) s with
  | Some (v, rest) => match skipWs rest with [] => Some v | _ :: _ => None end
  | None => None
  end.

(** Decimal digits of a number below [10 ^ fuel]. *)
Fixpoint digits (fuel : nat) (n : N) (acc : jsstring) : jsstring :=
  match fuel with
  | O => acc
  | S f =>
    let acc' := (0x30 + n mod 10) :: acc in
    if n / 10 =? 0 then acc' else digits f (n / 10) acc'
  end.

Definition intToString (z : Z) : jsstring :=
  (if (z <? 0)%Z then [0x2D] else []) ++ digits 16 (Z.abs_N z) [].

End JSON.

#[export] Instance concrete : Runtime Z := {|
  Number_toString := JSON.intToString;
  Number_toBoolean := fun z => negb (z =? 0)%Z;
  JSON_parse := JSON.parse
|}.


(* ================================================================== *)
(** * Properties *)

Unset Implicit Arguments.

(** ** The literals of the source, as code units *)

Example openMarker_units :
  openMarker = [0x3010; 0x5F00; 0x573A; 0x767D; 0x3011]%N.
Proof. reflexivity. Qed.

Example outlineMarker_units : outlineMarker = [0x3010; 0x5927; 0x7EB2; 0x3011]%N.
Proof. reflexivity. Qed.

Example altMarkers_units :
  altMarkers =
  [ [0x5927; 0x7EB2; 0xFF1A];
    [0x23; 0x23; 0x20; 0x5927; 0x7EB2];
    [0x23; 0x23; 0x20; 0x5185; 0x5BB9; 0x5927; 0x7EB2];
    [0x0A; 0x2D; 0x20];
    [0x0A; 0x2A; 0x20] ]%N.
Proof. reflexivity. Qed.

Example domain_keys_units :
  key_core = [0x6838; 0x5FC3; 0x91D1; 0x53E5]%N
  /\ key_logic = [0x903B; 0x8F91; 0x62C6; 0x89E3]%N
  /\ key_insight = [0x4E92; 0x52A8; 0x5EFA; 0x8BAE]%N.
Proof. repeat split. Qed.

Example js_literal_units :
  js "{'a':'\n'}" = [0x7B; 0x22; 0x61; 0x22; 0x3A; 0x22; 0x0A; 0x22; 0x7D]%N.
Proof. reflexivity. Qed.

(** ** Facts about strings *)

Lemma eqb_eq (a b : jsstring) : Str.eqb a b = true <-> a = b.
Proof.
  revert b; induction a as [|x a IH]; intros [|y b]; simpl; split;
    try congruence; try reflexivity.
  - intros H. apply andb_true_iff in H as [H1 H2].
    apply N.eqb_eq in H1. apply IH in H2. congruence.
  - intros H. injection H as -> ->. rewrite N.eqb_refl. simpl.
    now apply IH.
Qed.

Lemma eqb_refl (a : jsstring) : Str.eqb a a = true.
Proof. now apply eqb_eq. Qed.

Lemma eqb_nil (a : jsstring) : Str.eqb a [] = true <-> a = [].
Proof. apply eqb_eq. Qed.

Lemma len_app (a b : jsstring) : len (a ++ b) = len a + len b.
Proof. unfold len. rewrite length_app. lia. Qed.

Lemma len_nonneg (a : jsstring) : 0 <= len a.
Proof. unfold len. lia. Qed.

Lemma startsWith_app (m r : jsstring) : startsWith m (m ++ r) = true.
Proof.
  induction m as [|a m IH]; simpl; [reflexivity|].
  now rewrite N.eqb_refl, IH.
Qed.

Lemma trimStart_head (c : N) (r : jsstring) :
  isWhiteSpace c = false -> trimStart (c :: r) = c :: r.
Proof. intros H. simpl. now rewrite H. Qed.

Lemma trimStart_app_ws (ws s : jsstring) :
  forallb isWhiteSpace ws = true -> trimStart (ws ++ s) = trimStart s.
Proof.
  induction ws as [|w ws IH]; simpl; [reflexivity|].
  intros H. apply andb_true_iff in H as [Hw Hws]. rewrite Hw. now apply IH.
Qed.

Lemma trimEnd_last (s : jsstring) (d : N) :
  isWhiteSpace d = false -> trimEnd (s ++ [d]) = s ++ [d].
Proof.
  intros H. unfold trimEnd. rewrite rev_app_distr. simpl.
  rewrite H. simpl. now rewrite rev_involutive.
Qed.

Lemma forallb_rev_ws (ws : jsstring) :
  forallb isWhiteSpace (rev ws) = forallb isWhiteSpace ws.
Proof.
  induction ws as [|w ws IH]; simpl; [reflexivity|].
  rewrite forallb_app, IH. simpl. rewrite andb_true_r. apply andb_comm.
Qed.

Lemma trimEnd_app_ws (s ws : jsstring) :
  forallb isWhiteSpace ws = true -> trimEnd (s ++ ws) = trimEnd s.
Proof.
  intros H. unfold trimEnd. rewrite rev_app_distr.
  rewrite trimStart_app_ws; [reflexivity|].
  now rewrite forallb_rev_ws.
Qed.

(** A string that begins and ends with a code unit that is not white
    space is its own trimmed form. *)
Lemma trim_fixed (c d : N) (mid : jsstring) :
  isWhiteSpace c = false -> isWhiteSpace d = false ->
  trim (c :: mid ++ [d]) = c :: mid ++ [d].
Proof.
  intros Hc Hd. unfold trim. rewrite trimStart_head by assumption.
  now rewrite app_comm_cons, trimEnd_last.
Qed.

(** *** [indexOf] *)

Lemma indexOfFrom_here (m s : jsstring) (i : Z) :
  startsWith m s = true -> indexOfFrom m s i = i.
Proof. intros H. destruct s; simpl; now rewrite H. Qed.

Lemma indexOfFrom_next (m : jsstring) (c : N) (s : jsstring) (i : Z) :
  startsWith m (c :: s) = false ->
  indexOfFrom m (c :: s) i = indexOfFrom m s (i + 1).
Proof. intros H. cbn [indexOfFrom]. now rewrite H. Qed.

Lemma indexOfFrom_absent (m s : jsstring) (i j : Z) :
  0 <= i -> indexOfFrom m s i = -1 -> indexOfFrom m s j = -1.
Proof.
  revert i j. induction s as [|c s IH]; intros i j Hi H.
  - simpl in *. destruct (startsWith m []); [lia | reflexivity].
  - cbn [indexOfFrom] in *. destruct (startsWith m (c :: s)); [lia|].
    apply (IH (i + 1)); [lia | assumption].
Qed.

Lemma startsWith_iff (m s : jsstring) :
  startsWith m s = true <-> exists r, s = m ++ r.
Proof.
  revert s. induction m as [|a m IH]; intros s.
  - split; [intros _; now exists s | reflexivity].
  - destruct s as [|b s]; cbn [startsWith].
    + split; [discriminate | intros [r Hr]; discriminate].
    + rewrite andb_true_iff, N.eqb_eq, IH. split.
      * intros [-> [r ->]]. now exists r.
      * intros [r Hr]. injection Hr as -> ->. split; [reflexivity | now exists r].
Qed.

(** [indexOf] answers [-1] exactly for the texts in which the pattern
    does not occur. *)
Lemma indexOfFrom_absent_iff (m s : jsstring) (i : Z) :
  0 <= i ->
  indexOfFrom m s i = -1 <-> (forall a b, s <> a ++ m ++ b).
Proof.
  revert i. induction s as [|c s IH]; intros i Hi.
  - cbn [indexOfFrom]. destruct (startsWith m []) eqn:E.
    + split; [lia|]. intros H. apply startsWith_iff in E as [r Hr].
      exfalso. apply (H [] r). exact Hr.
    + split; [|reflexivity]. intros _ a b Hab.
      assert (startsWith m [] = true); [|congruence].
      apply startsWith_iff. exists b.
      destruct a; [exact Hab | discriminate].
  - cbn [indexOfFrom]. destruct (startsWith m (c :: s)) eqn:E.
    + split; [lia|]. intros H. apply startsWith_iff in E as [r Hr].
      exfalso. apply (H [] r). exact Hr.
    + rewrite IH by lia. split.
      * intros H a b Hab. destruct a as [|c' a].
        -- assert (startsWith m (c :: s) = true); [|congruence].
           apply startsWith_iff. now exists b.
        -- injection Hab as _ Hab. now apply (H a b).
      * intros H a b Hab. apply (H (c :: a) b). now rewrite Hab.
Qed.

Lemma indexOf_absent_iff (s m : jsstring) :
  indexOf s m = -1 <-> (forall a b, s <> a ++ m ++ b).
Proof. unfold indexOf. apply indexOfFrom_absent_iff. lia. Qed.

(** An occurrence that starts before a letter [a] which the rest [t]
    of the pattern does not hold ends before it. *)
Lemma startsWith_before (a : N) (t O R : jsstring) :
  forallb (fun x => negb (x =? a)%N) t = true ->
  startsWith t (O ++ a :: R) = true -> startsWith t O = true.
Proof.
  revert O. induction t as [|y t IH]; intros O Ht H; [reflexivity|].
  simpl in Ht. apply andb_true_iff in Ht as [Hy Ht].
  destruct O as [|z O]; simpl in H |- *.
  - apply andb_true_iff in H as [H _]. rewrite H in Hy. discriminate.
  - apply andb_true_iff in H as [H1 H2]. rewrite H1. simpl. now apply IH.
Qed.

(** The first occurrence of a pattern whose first letter it holds only
    once, after a text [O] that does not hold the pattern, is right
    after [O]. *)
Lemma indexOfFrom_app_first (a : N) (t O R : jsstring) (i : Z) :
  forallb (fun x => negb (x =? a)%N) t = true ->
  0 <= i ->
  indexOfFrom (a :: t) O i = -1 ->
  indexOfFrom (a :: t) (O ++ (a :: t) ++ R) i = i + len O.
Proof.
  intros Ht. revert i. induction O as [|x O IH]; intros i Hi H.
  - rewrite app_nil_l, indexOfFrom_here by apply startsWith_app.
    unfold len. simpl. lia.
  - cbn [indexOfFrom] in H.
    destruct (startsWith (a :: t) (x :: O)) eqn:E; [lia|].
    rewrite <- app_comm_cons, indexOfFrom_next.
    + rewrite IH; [unfold len; simpl List.length; lia | lia | assumption].
    + destruct (startsWith (a :: t) (x :: O ++ (a :: t) ++ R)) eqn:E'; [|reflexivity].
      simpl in E, E'. apply andb_true_iff in E' as [E1 E2].
      rewrite E1 in E. simpl in E.
      apply (startsWith_before a t O (t ++ R) Ht) in E2. congruence.
Qed.

(** *** [slice] *)

Lemma slice_app3 (A B C : jsstring) :
  slice (A ++ B ++ C) (len A) (len A + len B) = B.
Proof.
  unfold slice, relIndex. rewrite !len_app.
  pose proof (len_nonneg A). pose proof (len_nonneg B). pose proof (len_nonneg C).
  destruct (Z.ltb_spec (len A) 0); [lia|].
  destruct (Z.ltb_spec (len A + len B) 0); [lia|].
  rewrite !Z.min_l by lia.
  replace (len A + len B - len A) with (len B) by lia.
  unfold len. rewrite !Nat2Z.id.
  rewrite skipn_app, skipn_all, Nat.sub_diag. simpl.
  rewrite firstn_app, firstn_all, Nat.sub_diag. simpl. now rewrite app_nil_r.
Qed.

Lemma slice_prefix (s : jsstring) (k : Z) :
  0 <= k -> slice s 0 k = firstn (Z.to_nat k) s.
Proof.
  intros Hk. unfold slice, relIndex. pose proof (len_nonneg s).
  simpl (0 <? 0). rewrite (Z.min_l 0) by lia.
  destruct (Z.ltb_spec k 0); [lia|]. rewrite Z.sub_0_r. simpl skipn.
  destruct (Z.le_ge_cases k (len s)).
  - now rewrite Z.min_l.
  - rewrite Z.min_r by assumption. unfold len in *.
    rewrite Nat2Z.id, firstn_all. symmetry. apply firstn_all2. lia.
Qed.

Lemma sliceSection_between (A B C : jsstring) (idx mlen until_ : Z) :
  0 <= idx -> idx + mlen = len A -> until_ = len A + len B ->
  sliceSection (A ++ B ++ C) idx mlen until_ = trim B.
Proof.
  intros Hi Hs Hu. unfold sliceSection.
  pose proof (len_nonneg A). pose proof (len_nonneg B).
  destruct (Z.eqb_spec idx (-1)); [lia|].
  destruct (Z.eqb_spec until_ (-1)); [lia|].
  now rewrite Hs, Hu, slice_app3.
Qed.

Lemma sliceSection_rest (A B : jsstring) (idx mlen : Z) :
  0 <= idx -> idx + mlen = len A ->
  sliceSection (A ++ B) idx mlen (-1) = trim B.
Proof.
  intros Hi Hs. unfold sliceSection.
  destruct (Z.eqb_spec idx (-1)); [lia|]. simpl (-1 =? -1).
  rewrite Hs, len_app. rewrite <- (app_nil_r B) at 1.
  now rewrite slice_app3.
Qed.

(* ================================================================== *)
(** ** The Marker-Based Section Splitter *)

Lemma len_openMarker : len openMarker = 5.
Proof. reflexivity. Qed.

Lemma len_outlineMarker : len outlineMarker = 4.
Proof. reflexivity. Qed.

(** Neither marker can begin inside the other one: the bracket that
    opens both occurs in them only as the first code unit, and their
    second code units differ. *)
Lemma outlineIdx_after_open (O R : jsstring) :
  indexOf O outlineMarker = -1 ->
  indexOf (openMarker ++ O ++ outlineMarker ++ R) outlineMarker = 5 + len O.
Proof.
  intros H. unfold indexOf in *.
  rewrite openMarker_units. cbn [app].
  do 5 (rewrite indexOfFrom_next by reflexivity).
  rewrite outlineMarker_units in *.
  rewrite indexOfFrom_app_first; [lia | reflexivity | lia |].
  now apply indexOfFrom_absent with (i := 0).
Qed.

Lemma openIdx_after_outline (L R : jsstring) :
  indexOf L openMarker = -1 ->
  indexOf (outlineMarker ++ L ++ openMarker ++ R) openMarker = 4 + len L.
Proof.
  intros H. unfold indexOf in *.
  rewrite outlineMarker_units. cbn [app].
  do 4 (rewrite indexOfFrom_next by reflexivity).
  rewrite openMarker_units in *.
  rewrite indexOfFrom_app_first; [lia | reflexivity | lia |].
  now apply indexOfFrom_absent with (i := 0).
Qed.

Lemma indexOf_prefix (m r : jsstring) : indexOf (m ++ r) m = 0.
Proof. unfold indexOf. apply indexOfFrom_here, startsWith_app. Qed.

(** C4.  For every pair of strings O and L that contain neither
    marker ([indexOf] answers [-1], which by [indexOf_absent_iff] is to
    say that the marker does not occur), the splitter gives the same
    two sections whichever marker comes first: on
    openMarker + O + outlineMarker + L and on
    outlineMarker + L + openMarker + O the opening is O trimmed and the
    outline is L trimmed. *)
Theorem C4_marker_order_agnostic (O L : jsstring) :
  indexOf O openMarker = -1 -> indexOf O outlineMarker = -1 ->
  indexOf L openMarker = -1 -> indexOf L outlineMarker = -1 ->
  parseClaudeResponse (openMarker ++ O ++ outlineMarker ++ L)
  = {| sec_outline := trim L; sec_opening := trim O |}
  /\ parseClaudeResponse (outlineMarker ++ L ++ openMarker ++ O)
     = {| sec_outline := trim L; sec_opening := trim O |}.
Proof.
  intros _ HO HL _.
  pose proof (len_nonneg O) as HlO. pose proof (len_nonneg L) as HlL.
  split; unfold parseClaudeResponse.
  - rewrite indexOf_prefix, (outlineIdx_after_open O L HO).
    destruct (Z.eqb_spec (5 + len O) (-1)); [lia|].
    destruct (Z.gtb_spec (5 + len O) 0); [|lia].
    destruct (Z.gtb_spec 0 (5 + len O)); [lia|].
    cbn [negb andb Z.eqb]. f_equal.
    + replace (openMarker ++ O ++ outlineMarker ++ L)
        with ((openMarker ++ O ++ outlineMarker) ++ L)
        by now rewrite <- !app_assoc.
      apply sliceSection_rest; [lia|].
      rewrite !len_app, len_openMarker, len_outlineMarker. lia.
    + apply sliceSection_between; rewrite ?len_openMarker; lia.
  - rewrite indexOf_prefix, (openIdx_after_outline L O HL).
    destruct (Z.eqb_spec (4 + len L) (-1)); [lia|].
    destruct (Z.gtb_spec (4 + len L) 0); [|lia].
    destruct (Z.gtb_spec 0 (4 + len L)); [lia|].
    cbn [negb andb Z.eqb]. f_equal.
    + apply sliceSection_between; rewrite ?len_outlineMarker; lia.
    + replace (outlineMarker ++ L ++ openMarker ++ O)
        with ((outlineMarker ++ L ++ openMarker) ++ O)
        by now rewrite <- !app_assoc.
      apply sliceSection_rest; [lia|].
      rewrite !len_app, len_openMarker, len_outlineMarker. lia.
Qed.

Lemma C4_witness :
  let O := js " welcome to the show " in
  let L := js "\n- one\n- two\n" in
  (indexOf O openMarker = -1 /\ indexOf O outlineMarker = -1
   /\ indexOf L openMarker = -1 /\ indexOf L outlineMarker = -1)
  /\ parseClaudeResponse (openMarker ++ O ++ outlineMarker ++ L)
     = {| sec_outline := js "- one\n- two"; sec_opening := js "welcome to the show" |}
  /\ parseClaudeResponse (outlineMarker ++ L ++ openMarker ++ O)
     = {| sec_outline := js "- one\n- two"; sec_opening := js "welcome to the show" |}.
Proof.
  split; [repeat split |].
  exact (C4_marker_order_agnostic (js " welcome to the show ")
           (js "\n- one\n- two\n") eq_refl eq_refl eq_refl eq_refl).
Defined.

(** C9.  For every trimmed text that contains neither marker, the
    opening is the entire text and the outline is the trimmed first
    half of the text, the half being the length in code units divided
    by two and rounded down. *)
Theorem C9_no_marker_split (text : jsstring) :
  trim text = text ->
  indexOf text openMarker = -1 -> indexOf text outlineMarker = -1 ->
  parseClaudeResponse text
  = {| sec_outline := trim (firstn (List.length text / 2) text);
       sec_opening := text |}.
Proof.
  intros Ht Ho Hl. unfold parseClaudeResponse. rewrite Ho, Hl. cbn.
  rewrite Ht. f_equal. rewrite slice_prefix.
  - unfold len. change 2 with (Z.of_nat 2).
    now rewrite <- Nat2Z.inj_div, Nat2Z.id.
  - apply Z.div_pos; [apply len_nonneg | lia].
Qed.

Lemma C9_witness :
  let text := js "0123456789" in
  (trim text = text /\ indexOf text openMarker = -1
   /\ indexOf text outlineMarker = -1)
  /\ parseClaudeResponse text
     = {| sec_outline := js "01234"; sec_opening := js "0123456789" |}.
Proof.
  split; [repeat split |].
  exact (C9_no_marker_split (js "0123456789") eq_refl eq_refl eq_refl).
Defined.

(** C5.  What the code does on the reply of the specification's
    example, whose only marker is the opening one and whose leading
    segment holds a bullet line after some noise: the cue itself is cut
    away with the noise, so the outline begins at the words of the
    first bullet and not at its bullet symbol, while a second bullet
    keeps its symbol; and when the segment begins with the list, the
    cue is found at the second bullet and the first item is lost. *)
Theorem C5_bullet_cue_dropped :
  parseClaudeResponse (js "noise\n- bullet one\n【开场白】Hello")
  = {| sec_outline := js "bullet one"; sec_opening := js "Hello" |}
  /\ startsWith (js "- bullet one")
       (sec_outline (parseClaudeResponse (js "noise\n- bullet one\n【开场白】Hello")))
     = false
  /\ parseClaudeResponse (js "noise\n- one\n- two\n【开场白】Hello")
     = {| sec_outline := js "one\n- two"; sec_opening := js "Hello" |}
  /\ parseClaudeResponse (js "- one\n- two\n【开场白】Hello")
     = {| sec_outline := js "two"; sec_opening := js "Hello" |}.
Proof. repeat split. Qed.

(* ================================================================== *)
(** ** The leaf components *)

Section Leaves.

Context {number : Type} {R : Runtime number}.

Local Notation value := (value number) (only parsing).

Lemma mapM_map {A B C} (f : A -> M B) (g : B -> C) (l : list A) :
  mapM (fun x => y <- f x ;; ret (g y)) l = (ys <- mapM f l ;; ret (map g ys)).
Proof.
  induction l as [|x l IH]; [reflexivity|].
  cbn [mapM]. destruct (f x) as [y|]; [|reflexivity].
  rewrite IH. now destruct (mapM f l).
Qed.

Lemma mapM_ext {A B} (f g : A -> M B) (l : list A) :
  (forall x, f x = g x) -> mapM f l = mapM g l.
Proof.
  intros H. induction l as [|x l IH]; [reflexivity|].
  cbn [mapM]. now rewrite H, IH.
Qed.

(** *** Outline Renderer *)

Lemma itemLine_elementText (item : value) :
  itemLine item = (s <- elementText item ;; ret (utf16 "- " ++ trim s)).
Proof.
  unfold itemLine.
  destruct item as [| |b|n|s|l|props]; cbn [typeof isString isObject ToBoolean].
  - reflexivity.
  - reflexivity.
  - now destruct b.
  - rewrite andb_false_r. reflexivity.
  - reflexivity.
  - cbn [Get isNullish negb andb elementText].
    now destruct (ToString (VArr l)).
  - cbn [Get elementText andb].
    destruct (lookup (utf16 "text") props) as [t|].
    + destruct (isNullish t); cbn [negb]; [|reflexivity].
      now destruct (ToString (VObj props)).
    + cbn [isNullish negb]. now destruct (ToString (VObj props)).
Qed.

Lemma itemsToOutline_render (items : value) :
  itemsToOutline items = render elementText items.
Proof.
  unfold itemsToOutline.
  destruct items as [| |b|n|s|l|props]; try reflexivity.
  destruct l as [|x l]; [reflexivity|].
  replace (negb (Array_isArray (VArr (x :: l)))
           || (arrayLength (VArr (x :: l)) =? 0)) with false
    by (unfold arrayLength; cbn [Array_isArray negb orb elements List.length];
        symmetry; apply Z.eqb_neq; lia).
  cbn [elements render].
  rewrite (mapM_ext _ _ _ itemLine_elementText), mapM_map.
  now destruct (mapM elementText (x :: l)).
Qed.

(** C7, as the code has it.  The Outline Renderer gives the empty
    string for a value that is not an array and for an empty array;
    for any other array it gives one line per element, in order, joined
    by line feeds, each line the bullet [- ] and the trimmed text of
    the element, which is the element itself if it is a string, the
    string coercion of its [text] field if it is an object whose [text]
    is neither null nor undefined, and the string coercion of the
    element otherwise (a coercion that raises makes the Renderer
    raise); so [["a", {text: "b"}]] renders to the two lines [- a] and
    [- b]. *)
Theorem C7_outline_renderer :
  (forall items : value, itemsToOutline items = render elementText items)
  /\ (forall items : value,
        Array_isArray items = false \/ elements items = [] ->
        itemsToOutline items = ret [])
  /\ itemsToOutline (VArr [VStr (js "a"); VObj [(utf16 "text", VStr (js "b"))]])
     = ret (js "- a\n- b").
Proof.
  split; [exact itemsToOutline_render|]. split; [|reflexivity].
  intros items H. rewrite itemsToOutline_render.
  destruct items as [| |b|n|s|l|props]; try reflexivity.
  destruct H as [H|H]; [discriminate|]. cbn in H. now subst l.
Qed.

(** *** Item Normalizer *)





(** The three conditional pushes collect the fields that are true,
    in order. *)
Lemma pushParts_filter (c l i : value) :
  (parts <- pushPart c [] ;; parts <- pushPart l parts ;;
   parts <- pushPart i parts ;; ret {| text := join (js "\n") parts |})
  = (ss <- mapM ToString (filter ToBoolean [c; l; i]) ;;
     ret {| text := join (js "\n") (map trim ss) |}).
Proof.
  unfold pushPart. cbn [filter].
  destruct (ToBoolean c), (ToBoolean l), (ToBoolean i); cbn [mapM];
    repeat match goal with
           | |- context [ToString ?x] => destruct (ToString x)
           end; reflexivity.
Qed.

Lemma fieldOf_readField (native alias : jsstring) (item : value) :
  fieldOf native alias item = readField native alias item.
Proof.
  unfold fieldOf, coalesce, readField.
  destruct item as [| |b|n|s|l|props]; try reflexivity.
  cbn [Get].
  destruct (lookup native props) as [[| |b|n|s|l|q]|]; try reflexivity;
    destruct (lookup alias props) as [[| |b'|n'|s'|l'|q']|]; reflexivity.
Qed.

(** C6, as the code has it.  For every object that has no string
    [text] field, the text of the normalized item is made of the
    values, among the core quote, the logical breakdown and the
    interaction suggestion (each read from its native key, or from its
    English alias when the native key is missing, null or undefined),
    that the runtime takes for true: each coerced to a string and
    trimmed, in that order, joined by single line feeds.  A field that
    is missing, null, the empty string, zero or false contributes
    nothing; a field that is only white space, or that coerces to the
    empty string, contributes an empty line; and the Normalizer raises
    when the coercion of a field it takes raises. *)
Theorem C6_domain_record_text (item : value) :
  isNullish item = false -> typeof item = TObject ->
  isString (typeof (Get item (utf16 "text"))) = false ->
  normalizeItemForFrontend item
  = (t <- domainText item ;; ret {| text := t |}).
Proof.
  intros Hn Ho Ht. unfold normalizeItemForFrontend.
  rewrite Hn, Ho, Ht. cbn [isString isObject negb]. rewrite andb_false_r.
  rewrite pushParts_filter. unfold domainText, coreOf, logicOf, insightOf.
  rewrite !fieldOf_readField.
  now destruct (mapM ToString _).
Qed.


End Leaves.

(* ================================================================== *)
(** ** The Structured Response Parser *)

Section Parser.

Context {number : Type} {R : Runtime number}.

Local Notation value := (value number) (only parsing).

Lemma parseAIResponse_total (text : jsstring) :
  exists r, parseAIResponse text = ret r.
Proof.
  unfold parseAIResponse.
  destruct (try_catch _ _) as [[r|]|] eqn:E; eauto.
  unfold try_catch in E. destruct (tryBlock _); discriminate.
Qed.

Lemma parseAIResponse_returned (text : jsstring) (r : ParsedResponse) :
  tryBlock (stripFence (trim text)) = ret (Some r) ->
  parseAIResponse text = ret r.
Proof. intros H. unfold parseAIResponse. now rewrite H. Qed.

Lemma parseAIResponse_fell_back (text : jsstring) :
  tryBlock (stripFence (trim text)) = throw
  \/ tryBlock (stripFence (trim text)) = ret None ->
  parseAIResponse text = ret (fallback (trim text)).
Proof. intros [H|H]; unfold parseAIResponse; now rewrite H. Qed.

(** A TypeError of a string coercion inside the [try] block is caught
    like a SyntaxError of the decoder. *)
Lemma parseAIResponse_coercion_raises (text : jsstring) (obj : value) :
  JSON_parse (stripFence (trim text)) = Some obj ->
  ToBoolean obj = true -> readObject obj = throw ->
  parseAIResponse text = ret (fallback (trim text)).
Proof.
  intros Hp Ht Hr. apply parseAIResponse_fell_back. left.
  unfold tryBlock. now rewrite Hp, Ht, Hr.
Qed.

Lemma tryBlock_nothing (jsonStr : jsstring) (obj : value) :
  JSON_parse jsonStr = Some obj -> yieldsNothing obj = true ->
  tryBlock jsonStr = throw \/ tryBlock jsonStr = ret None.
Proof.
  intros Hp Hy. unfold tryBlock. rewrite Hp. unfold yieldsNothing in Hy.
  destruct (ToBoolean obj); cbn [negb orb] in Hy; [|right; reflexivity].
  apply andb_true_iff in Hy as [Hy Hi]. apply andb_true_iff in Hy as [Ho Hq].
  apply negb_true_iff in Hi. apply eqb_nil in Ho. apply eqb_nil in Hq.
  unfold readObject. rewrite Hi, Ho, Hq.
  destruct (visualCodeField obj); [right; reflexivity | left; reflexivity].
Qed.

(** C2, as the code has it.  The parser never raises; and whenever
    strict JSON decoding fails, or the decoded value leaves all three
    of outline, opening and items empty, it returns the splitter's
    outline and opening of the trimmed raw text (not of the
    fence-stripped text), with [items = null] and
    [visualCode = null]. *)
Theorem C2_never_raises_and_falls_back (text : jsstring) :
  (exists r, parseAIResponse text = ret r)
  /\ (JSON_parse (stripFence (trim text)) = None
      \/ (exists obj, JSON_parse (stripFence (trim text)) = Some obj
                      /\ yieldsNothing obj = true) ->
      parseAIResponse text
      = ret {| outline := sec_outline (parseClaudeResponse (trim text));
               opening := sec_opening (parseClaudeResponse (trim text));
               items := VNull; visualCode := VNull |}).
Proof.
  split; [apply parseAIResponse_total|].
  intros H. change (parseAIResponse text = ret (fallback (trim text))).
  apply parseAIResponse_fell_back. destruct H as [H|[obj [H Hy]]].
  - left. unfold tryBlock. now rewrite H.
  - now apply tryBlock_nothing with obj.
Qed.

Lemma hasItems_nonempty (props : list (jsstring * value)) (x : value) l :
  lookup (utf16 "items") props = Some (VArr (x :: l)) ->
  hasItems (VObj props) = true /\ Get (VObj props) (utf16 "items") = VArr (x :: l).
Proof.
  intros H. unfold hasItems, arrayLength. cbn [Get]. rewrite H.
  cbn [Array_isArray elements List.length andb]. split; [|reflexivity].
  apply Z.gtb_lt. lia.
Qed.

Lemma visualCodeField_ok (obj : value) :
  ToString (Get obj (utf16 "visualCode")) <> throw ->
  exists v, visualCodeField obj = ret v.
Proof.
  intros H. unfold visualCodeField.
  destruct (isNullish _); cbn [negb]; [eauto|].
  destruct (ToString _) as [s|]; [|contradiction].
  destruct (Str.eqb (trim s) []); cbn [negb]; eauto.
Qed.

(** C1, as the code has it.  When the reply decodes to a JSON object
    whose [items] is a non-empty array, the Outline Renderer returns on
    those raw items and the string coercion of [visualCode] does not
    raise, the parser returns the Renderer's output as [outline] and
    the raw array as [items]; no [outline] field of the object has a
    part in it. *)
Theorem C1_items_take_precedence
    (text : jsstring) (props : list (jsstring * value))
    (x : value) (l : list value) (o : jsstring) :
  JSON_parse (stripFence (trim text)) = Some (VObj props) ->
  lookup (utf16 "items") props = Some (VArr (x :: l)) ->
  itemsToOutline (VArr (x :: l)) = ret o ->
  ToString (Get (VObj props) (utf16 "visualCode")) <> throw ->
  exists r, parseAIResponse text = ret r
            /\ outline r = o /\ items r = VArr (x :: l).
Proof.
  intros Hp Hi Ho Hv.
  destruct (hasItems_nonempty props x l Hi) as [Hh Hg].
  destruct (visualCodeField_ok _ Hv) as [vc Hvc].
  exists {| outline := o; opening := openingField (VObj props);
            items := VArr (x :: l); visualCode := vc |}.
  split; [|split; reflexivity].
  apply parseAIResponse_returned. unfold tryBlock. rewrite Hp.
  cbn [ToBoolean]. unfold readObject. rewrite Hh, Hg, Ho, Hvc.
  unfold ret. cbn [fst snd outline opening items ToBoolean orb].
  now rewrite orb_true_r.
Qed.

(** C3, as the code has it.  When the decoded JSON object holds both
    [opening] and [summary] as strings, the opening that is read is the
    value of [summary]: [opening] is consulted only when [summary] is
    not a string.  The parser returns that value whenever it is not
    empty and no string coercion raises. *)
Theorem C3_summary_first
    (text : jsstring) (props : list (jsstring * value)) (s o : jsstring) :
  JSON_parse (stripFence (trim text)) = Some (VObj props) ->
  lookup (utf16 "summary") props = Some (VStr s) ->
  lookup (utf16 "opening") props = Some (VStr o) ->
  (hasItems (VObj props) = true ->
   itemsToOutline (Get (VObj props) (utf16 "items")) <> throw) ->
  ToString (Get (VObj props) (utf16 "visualCode")) <> throw ->
  openingField (VObj props) = s
  /\ (s <> [] -> exists r, parseAIResponse text = ret r /\ opening r = s).
Proof.
  intros Hp Hs _ Hi Hv.
  assert (Hf : openingField (VObj props) = s).
  { unfold openingField. cbn [Get]. now rewrite Hs. }
  split; [assumption|]. intros Hne.
  destruct (visualCodeField_ok _ Hv) as [vc Hvc].
  assert (Hr : exists r, readObject (VObj props) = ret r /\ opening r = s).
  { unfold readObject. rewrite Hvc, Hf.
    destruct (hasItems (VObj props)).
    - destruct (itemsToOutline _) as [ol|]; [|now destruct Hi].
      eexists. split; reflexivity.
    - eexists. split; reflexivity. }
  destruct Hr as [r [Hr Ho]]. exists r. split; [|assumption].
  apply parseAIResponse_returned. unfold tryBlock. rewrite Hp.
  cbn [ToBoolean]. rewrite Hr. unfold ret. cbn beta iota. rewrite Ho.
  destruct (Str.eqb s []) eqn:E; [apply eqb_nil in E; contradiction|].
  cbn [negb orb]. now rewrite orb_true_r.
Qed.

Lemma openingField_from_opening (obj : value) :
  isString (typeof (Get obj (utf16 "summary"))) = false ->
  openingField obj
  = if isString (typeof (Get obj (utf16 "opening")))
    then stringOf (Get obj (utf16 "opening")) else [].
Proof. intros H. unfold openingField. now rewrite H. Qed.

End Parser.

(* ================================================================== *)
(** ** The code fence *)

Lemma upper_ws (w : N) :
  isWhiteSpace w = true -> (0x4A =? upper w)%N = false.
Proof.
  intros H. apply N.eqb_neq. intros E. unfold upper in E.
  destruct ((0x61 <=? w) && (w <=? 0x7A))%N eqn:Hr.
  - apply andb_true_iff in Hr as [H1 H2].
    apply N.leb_le in H1. assert (w = 0x6A)%N by lia. subst w. discriminate.
  - subst w. discriminate.
Qed.

(** Without a tag the pattern's optional [json] matches nothing: what
    follows the fence begins with white space or with the brace. *)
Lemma no_tag_before_body (ws rest : jsstring) :
  forallb isWhiteSpace ws = true ->
  startsWithCI (utf16 "json") (ws ++ 0x7B%N :: rest) = false.
Proof.
  intros H. destruct ws as [|w ws]; [reflexivity|].
  cbn [forallb] in H. apply andb_true_iff in H as [Hw _].
  change (((0x4A =? upper w)%N
           && startsWithCI (utf16 "son") (ws ++ 0x7B%N :: rest)) = false).
  now rewrite (upper_ws w Hw).
Qed.

Lemma json_tag_matched (tag rest : jsstring) :
  isJsonTag tag = true ->
  startsWithCI (utf16 "json") (tag ++ rest) = true
  /\ skipn 4 (tag ++ rest) = rest.
Proof.
  unfold isJsonTag. intros H. apply eqb_eq in H.
  destruct tag as [|a [|b [|c [|d [|e tag]]]]]; try discriminate.
  cbn [map] in H. injection H as Ha Hb Hc Hd.
  split; [|reflexivity].
  change (((0x4A =? upper a)%N && ((0x53 =? upper b)%N
           && ((0x4F =? upper c)%N && ((0x4E =? upper d)%N && true)))) = true).
  now rewrite Ha, Hb, Hc, Hd.
Qed.

Lemma stripFenceOpen_fenced (tag ws1 mid rest : jsstring) :
  tag = [] \/ isJsonTag tag = true ->
  forallb isWhiteSpace ws1 = true ->
  stripFenceOpen (fence ++ tag ++ ws1 ++ (0x7B%N :: mid) ++ rest)
  = (0x7B%N :: mid) ++ rest.
Proof.
  intros Ht Hw. unfold stripFenceOpen. rewrite startsWith_app.
  change (skipn 3 (fence ++ ?x)) with x.
  assert (E : (if startsWithCI (utf16 "json") (tag ++ ws1 ++ (0x7B%N :: mid) ++ rest)
               then skipn 4 (tag ++ ws1 ++ (0x7B%N :: mid) ++ rest)
               else tag ++ ws1 ++ (0x7B%N :: mid) ++ rest)
              = ws1 ++ (0x7B%N :: mid) ++ rest).
  { destruct Ht as [->|Ht].
    - rewrite app_nil_l. cbn [app]. now rewrite no_tag_before_body.
    - destruct (json_tag_matched tag (ws1 ++ (0x7B%N :: mid) ++ rest) Ht) as [-> ->].
      reflexivity. }
  rewrite E, trimStart_app_ws by assumption. reflexivity.
Qed.

Lemma stripFenceClose_fenced (body ws2 : jsstring) (d : N) :
  isWhiteSpace d = false ->
  forallb isWhiteSpace ws2 = true ->
  stripFenceClose ((body ++ [d]) ++ ws2 ++ fence) = body ++ [d].
Proof.
  intros Hd Hw. unfold stripFenceClose.
  rewrite !rev_app_distr. cbn [fence rev app].
  rewrite !N.eqb_refl. cbn [andb].
  rewrite trimStart_app_ws by now rewrite forallb_rev_ws.
  rewrite trimStart_head by assumption.
  cbn [rev]. now rewrite rev_involutive.
Qed.

Lemma stripFenceClose_brace (mid : jsstring) :
  stripFenceClose (0x7B%N :: mid ++ [0x7D%N]) = 0x7B%N :: mid ++ [0x7D%N].
Proof.
  unfold stripFenceClose. rewrite app_comm_cons, rev_app_distr.
  cbn [rev app]. destruct (rev mid ++ [0x7B%N]) as [|b [|c r]]; reflexivity.
Qed.

Lemma stripFence_object (mid : jsstring) :
  stripFence (trim (0x7B%N :: mid ++ [0x7D%N])) = 0x7B%N :: mid ++ [0x7D%N].
Proof.
  rewrite trim_fixed by reflexivity. unfold stripFence.
  change (stripFenceOpen (0x7B%N :: mid ++ [0x7D%N]))
    with (0x7B%N :: mid ++ [0x7D%N]).
  rewrite stripFenceClose_brace. now apply trim_fixed.
Qed.

Lemma trim_fenced (tag ws1 body ws2 : jsstring) :
  trim (fenced tag ws1 body ws2) = fenced tag ws1 body ws2.
Proof.
  unfold fenced.
  replace (fence ++ tag ++ ws1 ++ body ++ ws2 ++ fence)
    with (tick :: (tick :: tick :: tag ++ ws1 ++ body ++ ws2 ++ [tick; tick])
                  ++ [tick]).
  - now apply trim_fixed.
  - unfold fence. cbn [app]. now rewrite <- !app_assoc.
Qed.

Lemma stripFence_fenced (tag ws1 mid ws2 : jsstring) :
  tag = [] \/ isJsonTag tag = true ->
  forallb isWhiteSpace ws1 = true -> forallb isWhiteSpace ws2 = true ->
  stripFence (trim (fenced tag ws1 (0x7B%N :: mid ++ [0x7D%N]) ws2))
  = 0x7B%N :: mid ++ [0x7D%N].
Proof.
  intros Ht H1 H2. rewrite trim_fenced. unfold stripFence, fenced.
  rewrite stripFenceOpen_fenced by assumption.
  rewrite app_comm_cons, stripFenceClose_fenced by (reflexivity || assumption).
  rewrite <- app_comm_cons. now apply trim_fixed.
Qed.

Section Fence.

Context {number : Type} {R : Runtime number}.

(** C8, as the code has it.  A JSON object wrapped in a leading and a
    trailing triple-backtick fence, with no tag or with the tag [json]
    in any mix of cases, and with any white space between the fences
    and the object, is stripped to the object's own text before strict
    decoding: the decoder is given exactly what it is given for the
    unfenced object, and whatever the parser returns from the decoded
    value of the one it returns from the other. *)
Theorem C8_fence_stripped_before_decoding (tag ws1 mid ws2 : jsstring) :
  let body := (0x7B :: mid ++ [0x7D])%N in
  tag = [] \/ isJsonTag tag = true ->
  forallb isWhiteSpace ws1 = true -> forallb isWhiteSpace ws2 = true ->
  stripFence (trim (fenced tag ws1 body ws2)) = body
  /\ stripFence (trim body) = body
  /\ JSON_parse (stripFence (trim (fenced tag ws1 body ws2)))
     = JSON_parse (stripFence (trim body))
  /\ (forall r, tryBlock (stripFence (trim body)) = ret (Some r) ->
                parseAIResponse (fenced tag ws1 body ws2) = ret r
                /\ parseAIResponse body = ret r).
Proof.
  intros body Ht H1 H2.
  pose proof (stripFence_fenced tag ws1 mid ws2 Ht H1 H2) as Hf.
  pose proof (stripFence_object mid) as Hb. fold body in Hf, Hb.
  repeat split; try assumption.
  - now rewrite Hf, Hb.
  - apply parseAIResponse_returned. now rewrite Hf, <- Hb.
  - now apply parseAIResponse_returned.
Qed.

End Fence.

(* ================================================================== *)
(** * Runs on the concrete runtime *)

Section Runs.

Local Notation value := (value Z) (only parsing).

Lemma C1_witness :
  let text := js "{'outline':'ignored','items':['a',{'text':'b'}]}" in
  exists r, parseAIResponse text = ret r
            /\ outline r = js "- a\n- b"
            /\ items r = VArr [VStr (js "a"); VObj [(utf16 "text", VStr (js "b"))]].
Proof.
  apply (C1_items_take_precedence
           (js "{'outline':'ignored','items':['a',{'text':'b'}]}")
           [(utf16 "outline", VStr (js "ignored"));
            (utf16 "items", VArr [VStr (js "a"); VObj [(utf16 "text", VStr (js "b"))]])]).
  - vm_compute. reflexivity.
  - vm_compute. reflexivity.
  - vm_compute. reflexivity.
  - vm_compute. discriminate.
Defined.

(** The reply decodes to an object with a non-empty [items], the
    Renderer gives [- a] on it, and the parser returns another outline:
    the coercion of [visualCode] raises inside the [try] block. *)
Lemma C1_counterexample :
  let text := js "{'items':['a'],'visualCode':{'toString':1}}" in
  JSON_parse (stripFence (trim text))
  = Some (VObj [(utf16 "items", VArr [VStr (js "a")]);
                (utf16 "visualCode", VObj [(utf16 "toString", VNum 1%Z)])])
  /\ itemsToOutline (VArr [VStr (js "a")] : value) = ret (js "- a")
  /\ option_map outline (parseAIResponse text) = Some (js "{'items':['a'],'visua")
  /\ option_map outline (parseAIResponse text)
     <> itemsToOutline (VArr [VStr (js "a")] : value).
Proof.
  repeat split; try (vm_compute; reflexivity). vm_compute. discriminate.
Qed.

Lemma C2_witness :
  let text := js "```json\n{}\n```" in
  JSON_parse (stripFence (trim text)) = Some (VObj [] : value)
  /\ parseAIResponse text
     = ret {| outline := js "```json"; opening := text;
              items := VNull; visualCode := VNull |}.
Proof.
  split; [vm_compute; reflexivity|].
  apply (proj2 (C2_never_raises_and_falls_back (js "```json\n{}\n```"))).
  right. exists (VObj []). split; vm_compute; reflexivity.
Defined.

(** Strict decoding fails on the reply, and the parser returns
    [items = null], which is not [undefined]. *)
Lemma C2_counterexample :
  let text := js "just some words" in
  JSON_parse (stripFence (trim text)) = (None : option value)
  /\ parseAIResponse text
     = ret {| outline := js "just so"; opening := text;
              items := VNull; visualCode := VNull |}
  /\ option_map items (parseAIResponse text) <> Some (VUndefined : value).
Proof.
  repeat split; try (vm_compute; reflexivity). vm_compute. discriminate.
Qed.

Lemma C3_witness :
  let text := js "{'opening':'A','summary':'B'}" in
  exists r, parseAIResponse text = ret r /\ opening r = js "B".
Proof.
  refine (proj2 (C3_summary_first
                   (js "{'opening':'A','summary':'B'}")
                   [(utf16 "opening", VStr (js "A")); (utf16 "summary", VStr (js "B"))]
                   (js "B") (js "A") _ _ _ _ _) _).
  - vm_compute. reflexivity.
  - vm_compute. reflexivity.
  - vm_compute. reflexivity.
  - vm_compute. discriminate.
  - vm_compute. discriminate.
  - vm_compute. discriminate.
Defined.

(** Both fields are strings, and the parser returns [summary]. *)
Lemma C3_counterexample :
  let text := js "{'opening':'A','summary':'B'}" in
  JSON_parse (stripFence (trim text))
  = Some (VObj [(utf16 "opening", VStr (js "A")); (utf16 "summary", VStr (js "B"))])
  /\ parseAIResponse text
     = ret {| outline := []; opening := js "B"; items := (VNull : value);
              visualCode := VNull |}
  /\ option_map opening (parseAIResponse text) <> Some (js "A").
Proof.
  repeat split; try (vm_compute; reflexivity). vm_compute. discriminate.
Qed.

(** The example of the specification; and a record whose core comes
    from the alias because the native key is null, whose logic is
    white space only and stays as an empty line, and whose empty
    native insight hides the alias. *)
Lemma C6_witness :
  let item : value := VObj [(key_core, VStr (js "A")); (key_logic, VStr (js "B"))] in
  let item' : value :=
    VObj [(key_core, VNull); (utf16 "core", VStr (js " A "));
          (utf16 "logic", VStr (js "  "));
          (key_insight, VStr []); (utf16 "insight", VStr (js "C"))] in
  (isNullish item = false /\ typeof item = TObject
   /\ isString (typeof (Get item (utf16 "text"))) = false)
  /\ normalizeItemForFrontend item = ret {| text := js "A\nB" |}
  /\ normalizeItemForFrontend item' = ret {| text := js "A\n" |}.
Proof.
  split; [repeat split|]. split.
  - exact (C6_domain_record_text
             (VObj [(key_core, VStr (js "A")); (key_logic, VStr (js "B"))] : value)
             eq_refl eq_refl eq_refl).
  - exact (C6_domain_record_text
             (VObj [(key_core, VNull); (utf16 "core", VStr (js " A "));
                    (utf16 "logic", VStr (js "  "));
                    (key_insight, VStr []); (utf16 "insight", VStr (js "C"))] : value)
             eq_refl eq_refl eq_refl).
Defined.

(** A logical breakdown of white space only: the code leaves an empty
    line for it, the specification's wording leaves none.  And a core
    quote that is the number zero, which the code drops. *)
Lemma C6_counterexample :
  let item : value :=
    VObj [(key_core, VStr (js "A")); (key_logic, VStr (js "   "));
          (key_insight, VStr (js "C"))] in
  let item0 : value := VObj [(utf16 "core", VNum 0%Z); (utf16 "logic", VStr (js "B"))] in
  normalizeItemForFrontend item = ret {| text := js "A\n\nC" |}
  /\ domainText_claim item = ret (js "A\nC")
  /\ option_map text (normalizeItemForFrontend item) <> domainText_claim item
  /\ normalizeItemForFrontend item0 = ret {| text := js "B" |}
  /\ domainText_claim item0 = ret (js "0\nB").
Proof.
  repeat split; try (vm_compute; reflexivity). vm_compute. discriminate.
Qed.

(** The object has a [text] field that is not a string: the code
    renders that field, the specification's wording the object. *)
Lemma C7_counterexample :
  let items : value := VArr [VObj [(utf16 "text", VBool true)]] in
  itemsToOutline items = ret (js "- true")
  /\ render elementText_spec items = ret (js "- [object Object]")
  /\ itemsToOutline items <> render elementText_spec items.
Proof.
  repeat split; try (vm_compute; reflexivity). vm_compute. discriminate.
Qed.

Lemma C7_witness :
  itemsToOutline (VNum 7%Z : value) = ret []
  /\ itemsToOutline (VArr [] : value) = ret []
  /\ itemsToOutline (VArr [VStr (js "a"); VObj [(utf16 "text", VStr (js "b"))]] : value)
     = ret (js "- a\n- b").
Proof.
  destruct (C7_outline_renderer (R := concrete)) as [_ [H E]].
  split; [apply H; left; reflexivity|].
  split; [apply H; right; reflexivity | exact E].
Defined.

Lemma C8_witness :
  let text := js "```Json\n{'opening':'hi'}\n```" in
  let body := js "{'opening':'hi'}" in
  stripFence (trim text) = body
  /\ stripFence (trim body) = body
  /\ JSON_parse (stripFence (trim text)) = JSON_parse (stripFence (trim body))
  /\ (forall r : ParsedResponse (number := Z),
         tryBlock (stripFence (trim body)) = ret (Some r) ->
         parseAIResponse text = ret r /\ parseAIResponse body = ret r).
Proof.
  exact (C8_fence_stripped_before_decoding (R := concrete)
           (js "Json") (js "\n") (js "'opening':'hi'") (js "\n")
           (or_intror eq_refl) eq_refl eq_refl).
Defined.

(** With another tag the opening pattern leaves the tag in place, and
    strict decoding fails where it succeeds on the unfenced object. *)
Lemma C8_counterexample :
  let text := js "```js\n{'opening':'hi'}\n```" in
  let body := js "{'opening':'hi'}" in
  stripFence (trim text) = js "js\n{'opening':'hi'}"
  /\ JSON_parse (stripFence (trim text)) = (None : option value)
  /\ JSON_parse (stripFence (trim body))
     = Some (VObj [(utf16 "opening", VStr (js "hi"))])
  /\ JSON_parse (stripFence (trim text)) <> JSON_parse (stripFence (trim body))
  /\ parseAIResponse text <> parseAIResponse body.
Proof.
  repeat split; try (vm_compute; reflexivity); vm_compute; discriminate.
Qed.


End Runs.

(* ================================================================== *)
(** * Further properties of the code *)

(** ** [trim] *)

Lemma trimStart_idem (s : jsstring) : trimStart (trimStart s) = trimStart s.
Proof.
  induction s as [|c s IH]; [reflexivity|].
  cbn [trimStart]. destruct (isWhiteSpace c) eqn:E; [exact IH|].
  cbn [trimStart]. now rewrite E.
Qed.

Lemma trimStart_split (s : jsstring) :
  exists ws, forallb isWhiteSpace ws = true /\ s = ws ++ trimStart s.
Proof.
  induction s as [|c s [ws [Hws Hs]]]; [now exists []|].
  cbn [trimStart]. destruct (isWhiteSpace c) eqn:E.
  - exists (c :: ws). cbn [forallb app]. rewrite E, Hws. split; [reflexivity|].
    now rewrite <- Hs.
  - now exists [].
Qed.

Lemma trimStart_head_not_ws (s : jsstring) (c : N) (r : jsstring) :
  trimStart s = c :: r -> isWhiteSpace c = false.
Proof.
  induction s as [|d s IH]; [discriminate|].
  cbn [trimStart]. destruct (isWhiteSpace d) eqn:E; [exact IH|].
  intros H. injection H as <- _. exact E.
Qed.

Lemma trimEnd_split (s : jsstring) :
  exists ws, forallb isWhiteSpace ws = true /\ s = trimEnd s ++ ws.
Proof.
  destruct (trimStart_split (rev s)) as [ws [Hws Hs]].
  exists (rev ws). rewrite forallb_rev_ws. split; [assumption|].
  unfold trimEnd. rewrite <- rev_app_distr, <- Hs. now rewrite rev_involutive.
Qed.

Lemma trimEnd_idem (s : jsstring) : trimEnd (trimEnd s) = trimEnd s.
Proof. unfold trimEnd. now rewrite rev_involutive, trimStart_idem. Qed.

Lemma trimEnd_keeps_head (t : jsstring) :
  trimStart t = t -> trimStart (trimEnd t) = trimEnd t.
Proof.
  intros Ht. destruct (trimEnd_split t) as [ws [_ Hs]].
  destruct (trimEnd t) as [|c p]; [reflexivity|].
  rewrite Hs in Ht. cbn [app] in Ht.
  apply trimStart_head_not_ws in Ht. now apply trimStart_head.
Qed.

Lemma trim_idem (s : jsstring) : trim (trim s) = trim s.
Proof.
  unfold trim.
  rewrite (trimEnd_keeps_head (trimStart s) (trimStart_idem s)).
  apply trimEnd_idem.
Qed.

Lemma trim_all_ws (s : jsstring) :
  forallb isWhiteSpace s = true -> trim s = [].
Proof.
  intros H. unfold trim. rewrite <- (app_nil_r s).
  now rewrite trimStart_app_ws.
Qed.

(** White space around a text does not change its trimmed form. *)
Lemma trim_pad (ws1 t ws2 : jsstring) :
  forallb isWhiteSpace ws1 = true -> forallb isWhiteSpace ws2 = true ->
  trim (ws1 ++ t ++ ws2) = trim t.
Proof.
  intros H1 H2. unfold trim. rewrite trimStart_app_ws by assumption.
  destruct (trimStart_split t) as [w [Hw Ht]].
  rewrite Ht at 1. rewrite <- app_assoc, trimStart_app_ws by assumption.
  destruct (trimStart t) as [|c u] eqn:E.
  - rewrite app_nil_l. rewrite <- (app_nil_r ws2).
    now rewrite trimStart_app_ws.
  - pose proof (trimStart_head_not_ws t c u E) as Hc.
    rewrite <- app_comm_cons, trimStart_head by assumption.
    rewrite app_comm_cons. now apply trimEnd_app_ws.
Qed.

(** ** More of the Marker-Based Section Splitter *)

Lemma sliceSection_trimmed (text : jsstring) (a b c : Z) :
  trim (sliceSection text a b c) = sliceSection text a b c.
Proof.
  unfold sliceSection. destruct (a =? -1); [reflexivity | apply trim_idem].
Qed.

Lemma cutAtAltMarker_trimmed (ms : list jsstring) (o : jsstring) :
  trim o = o -> trim (cutAtAltMarker ms o) = cutAtAltMarker ms o.
Proof.
  intros Ho. induction ms as [|m ms IH]; [exact Ho|].
  cbn [cutAtAltMarker]. destruct (negb _); [apply trim_idem | exact IH].
Qed.

(** X1.  Whatever the text, the two sections the splitter returns are
    trimmed: neither begins nor ends with white space. *)
Theorem X1_sections_are_trimmed (text : jsstring) :
  trim (sec_outline (parseClaudeResponse text))
  = sec_outline (parseClaudeResponse text)
  /\ trim (sec_opening (parseClaudeResponse text))
     = sec_opening (parseClaudeResponse text).
Proof.
  unfold parseClaudeResponse.
  destruct (negb (indexOf text openMarker =? -1)),
           (negb (indexOf text outlineMarker =? -1));
    cbn [andb sec_outline sec_opening]; split;
    try apply sliceSection_trimmed; try apply trim_idem; try reflexivity.
  apply cutAtAltMarker_trimmed, trim_idem.
Qed.

Lemma indexOf_first_outline (A B : jsstring) :
  indexOf A outlineMarker = -1 ->
  indexOf (A ++ outlineMarker ++ B) outlineMarker = len A.
Proof.
  intros H. unfold indexOf in *. rewrite outlineMarker_units in *.
  rewrite indexOfFrom_app_first; [lia | reflexivity | lia | assumption].
Qed.

Lemma indexOf_first_open (A B : jsstring) :
  indexOf A openMarker = -1 ->
  indexOf (A ++ openMarker ++ B) openMarker = len A.
Proof.
  intros H. unfold indexOf in *. rewrite openMarker_units in *.
  rewrite indexOfFrom_app_first; [lia | reflexivity | lia | assumption].
Qed.

(** X2.  A text that holds the outline marker and not the opening
    marker: the opening is empty and the outline is everything after
    the first outline marker, trimmed. *)
Theorem X2_outline_marker_only (A B : jsstring) :
  indexOf A outlineMarker = -1 ->
  indexOf (A ++ outlineMarker ++ B) openMarker = -1 ->
  parseClaudeResponse (A ++ outlineMarker ++ B)
  = {| sec_outline := trim B; sec_opening := [] |}.
Proof.
  intros HA Hno. unfold parseClaudeResponse.
  rewrite Hno, (indexOf_first_outline A B HA).
  pose proof (len_nonneg A).
  destruct (Z.eqb_spec (len A) (-1)); [lia|].
  change (-1 =? -1) with true. cbn [negb andb]. f_equal.
  rewrite app_assoc. apply sliceSection_rest; [lia|].
  now rewrite len_app, len_outlineMarker.
Qed.

Lemma cutAtAltMarker_none (ms : list jsstring) (o : jsstring) :
  (forall m, In m ms -> indexOf o m = -1) -> cutAtAltMarker ms o = o.
Proof.
  induction ms as [|m ms IH]; intros H; [reflexivity|].
  cbn [cutAtAltMarker]. rewrite (H m (or_introl eq_refl)). cbn.
  apply IH. intros m' Hm'. apply H. now right.
Qed.

Lemma sliceFrom_app (A B : jsstring) : sliceFrom (A ++ B) (len A) = B.
Proof.
  unfold sliceFrom. rewrite len_app. rewrite <- (app_nil_r B) at 1.
  apply slice_app3.
Qed.

(** The loop takes the first cue of the list that occurs, wherever the
    later cues of the list occur. *)
Lemma cutAtAltMarker_first (ms1 ms2 : list jsstring) (m P Q : jsstring) :
  (forall m', In m' ms1 -> indexOf (P ++ m ++ Q) m' = -1) ->
  indexOf (P ++ m ++ Q) m = len P ->
  cutAtAltMarker (ms1 ++ m :: ms2) (P ++ m ++ Q) = trim Q.
Proof.
  intros Hno Hm. induction ms1 as [|m1 ms1 IH]; cbn [app cutAtAltMarker].
  - rewrite Hm. pose proof (len_nonneg P).
    destruct (Z.eqb_spec (len P) (-1)); [lia|]. cbn [negb].
    rewrite <- len_app, app_assoc. now rewrite sliceFrom_app.
  - rewrite (Hno m1 (or_introl eq_refl)). cbn.
    apply IH. intros m' Hm'. apply Hno. now right.
Qed.

Lemma slice_leading (A R : jsstring) : slice (A ++ R) 0 (len A) = A.
Proof.
  rewrite slice_prefix by apply len_nonneg. unfold len.
  rewrite Nat2Z.id, firstn_app, firstn_all, Nat.sub_diag. cbn.
  apply app_nil_r.
Qed.

Lemma open_marker_only (A B : jsstring) :
  indexOf A openMarker = -1 ->
  indexOf (A ++ openMarker ++ B) outlineMarker = -1 ->
  parseClaudeResponse (A ++ openMarker ++ B)
  = {| sec_outline := cutAtAltMarker altMarkers (trim A);
       sec_opening := trim B |}.
Proof.
  intros HA Hno. unfold parseClaudeResponse.
  rewrite Hno, (indexOf_first_open A B HA).
  pose proof (len_nonneg A).
  destruct (Z.eqb_spec (len A) (-1)); [lia|].
  change (-1 =? -1) with true. cbn [negb andb].
  f_equal.
  - now rewrite slice_leading.
  - rewrite app_assoc. apply sliceSection_rest; [lia|].
    now rewrite len_app, len_openMarker.
Qed.

(** X3.  A text that holds the opening marker and not the outline
    marker, and whose leading segment holds none of the five cues: the
    outline is the whole leading segment, trimmed, and the opening is
    everything after the marker, trimmed. *)
Theorem X3_open_marker_no_cue (A B : jsstring) :
  indexOf A openMarker = -1 ->
  indexOf (A ++ openMarker ++ B) outlineMarker = -1 ->
  (forall m, In m altMarkers -> indexOf (trim A) m = -1) ->
  parseClaudeResponse (A ++ openMarker ++ B)
  = {| sec_outline := trim A; sec_opening := trim B |}.
Proof.
  intros HA Hno Hc. rewrite open_marker_only by assumption.
  now rewrite cutAtAltMarker_none.
Qed.

(** X4.  A text that holds the opening marker and not the outline
    marker: the cue that cuts the trimmed leading segment is the first
    one in the order of the list that occurs in it, not the one that
    occurs leftmost, and the outline is what follows the first
    occurrence of that cue, trimmed. *)
Theorem X4_cue_priority
    (A B : jsstring) (ms1 ms2 : list jsstring) (m P Q : jsstring) :
  indexOf A openMarker = -1 ->
  indexOf (A ++ openMarker ++ B) outlineMarker = -1 ->
  altMarkers = ms1 ++ m :: ms2 ->
  trim A = P ++ m ++ Q ->
  indexOf (trim A) m = len P ->
  (forall m', In m' ms1 -> indexOf (trim A) m' = -1) ->
  parseClaudeResponse (A ++ openMarker ++ B)
  = {| sec_outline := trim Q; sec_opening := trim B |}.
Proof.
  intros HA Hno Hms Hseg Hm Hearlier. rewrite open_marker_only by assumption.
  rewrite Hms, Hseg in *. now rewrite cutAtAltMarker_first.
Qed.

(** ** More of the code fence *)

(** X13.  A fence at one end only is stripped as well: a JSON object
    after an opening fence (with no tag or the tag [json]) and no
    closing fence, or before a closing fence and no opening fence, is
    stripped to the object's own text. *)
Theorem X13_one_sided_fence (tag ws1 mid ws2 : jsstring) :
  let body := (0x7B :: mid ++ [0x7D])%N in
  tag = [] \/ isJsonTag tag = true ->
  forallb isWhiteSpace ws1 = true -> forallb isWhiteSpace ws2 = true ->
  stripFence (trim (fence ++ tag ++ ws1 ++ body)) = body
  /\ stripFence (trim (body ++ ws2 ++ fence)) = body.
Proof.
  intros body Ht H1 H2. subst body. split.
  - replace (fence ++ tag ++ ws1 ++ 0x7B%N :: mid ++ [0x7D%N])
      with (tick :: (tick :: tick :: tag ++ ws1 ++ 0x7B%N :: mid) ++ [0x7D%N])
      by (unfold fence; repeat (progress (cbn [app]; rewrite <- ?app_assoc)); reflexivity).
    rewrite trim_fixed by reflexivity.
    replace (tick :: (tick :: tick :: tag ++ ws1 ++ 0x7B%N :: mid) ++ [0x7D%N])
      with (fence ++ tag ++ ws1 ++ (0x7B%N :: mid) ++ [0x7D%N])
      by (unfold fence; repeat (progress (cbn [app]; rewrite <- ?app_assoc)); reflexivity).
    unfold stripFence. rewrite stripFenceOpen_fenced by assumption.
    rewrite <- app_comm_cons, stripFenceClose_brace. now apply trim_fixed.
  - replace ((0x7B%N :: mid ++ [0x7D%N]) ++ ws2 ++ fence)
      with (0x7B%N :: (mid ++ [0x7D%N] ++ ws2 ++ [tick; tick]) ++ [tick])
      by (unfold fence; repeat (progress (cbn [app]; rewrite <- ?app_assoc)); reflexivity).
    rewrite trim_fixed by reflexivity.
    replace (0x7B%N :: (mid ++ [0x7D%N] ++ ws2 ++ [tick; tick]) ++ [tick])
      with (((0x7B%N :: mid) ++ [0x7D%N]) ++ ws2 ++ fence)
      by (unfold fence; repeat (progress (cbn [app]; rewrite <- ?app_assoc)); reflexivity).
    unfold stripFence.
    change (stripFenceOpen (((0x7B%N :: mid) ++ [0x7D%N]) ++ ws2 ++ fence))
      with (((0x7B%N :: mid) ++ [0x7D%N]) ++ ws2 ++ fence).
    rewrite stripFenceClose_fenced by (reflexivity || assumption).
    rewrite <- app_comm_cons. now apply trim_fixed.
Qed.

(** ** More of the leaf components *)

Section MoreLeaves.

Context {number : Type} {R : Runtime number}.

Local Notation value := (value number) (only parsing).

Lemma mapM_length {A B} (f : A -> M B) (l : list A) (ys : list B) :
  mapM f l = ret ys -> List.length ys = List.length l.
Proof.
  revert ys. induction l as [|x l IH]; intros ys H.
  - injection H as <-. reflexivity.
  - cbn [mapM] in H. destruct (f x) as [y|]; [|discriminate].
    destruct (mapM f l) as [ys'|]; [|discriminate].
    injection H as <-. cbn. now rewrite (IH ys' eq_refl).
Qed.

Lemma mapM_throw_iff {A B} (f : A -> M B) (l : list A) :
  mapM f l = throw <-> exists x, In x l /\ f x = throw.
Proof.
  unfold throw. induction l as [|x l IH]; cbn [mapM In].
  - split; [discriminate | intros [x [[] _]]].
  - destruct (f x) as [y|] eqn:E.
    + destruct (mapM f l) as [ys|].
      * split; [discriminate|]. intros [z [[<-|Hz] Hf]]; [congruence|].
        destruct IH as [_ IH]. discriminate IH. now exists z.
      * split; [|reflexivity]. intros _.
        destruct IH as [IH _]. destruct (IH eq_refl) as [z [Hz Hf]].
        exists z. split; [now right | assumption].
    + split; [|reflexivity]. intros _. exists x. split; [now left | assumption].
Qed.

Lemma join_bullets_nonempty (y : jsstring) (ys : list jsstring) :
  join (js "\n") (map (fun s => utf16 "- " ++ trim s) (y :: ys)) <> [].
Proof.
  cbn [map join]. change (utf16 "- ") with [0x2D; 0x20]%N. cbn [app].
  destruct (map _ ys); discriminate.
Qed.

(** X5.  When the Outline Renderer returns, its output is the empty
    string only for a value that is not an array and for the empty
    array: a non-empty array never renders to the empty string. *)
Theorem X5_outline_empty_iff (items : value) (o : jsstring) :
  itemsToOutline items = ret o ->
  (o = [] <-> Array_isArray items = false \/ elements items = []).
Proof.
  rewrite itemsToOutline_render.
  destruct items as [| |b|n|s|l|props]; cbn [render];
    try (intros H; injection H as <-; split; [now left | reflexivity]).
  destruct l as [|x l].
  - intros H. injection H as <-. split; [now right | reflexivity].
  - destruct (mapM elementText (x :: l)) as [ss|] eqn:E; [|discriminate].
    intros H. injection H as <-.
    pose proof (mapM_length _ _ _ E) as Hl.
    destruct ss as [|y ys]; [discriminate|].
    split.
    + intros H. now apply join_bullets_nonempty in H.
    + intros [H|H]; discriminate.
Qed.

Lemma normalize_object (item : value) :
  isNullish item = false -> typeof item = TObject ->
  isString (typeof (Get item (utf16 "text"))) = false ->
  normalizeItemForFrontend item
  = (ss <- mapM ToString (filter ToBoolean (domainFields item)) ;;
     ret {| text := join (js "\n") (map trim ss) |}).
Proof.
  intros Hn Ho Ht. unfold normalizeItemForFrontend.
  rewrite Hn, Ho, Ht. cbn [isString isObject negb]. rewrite andb_false_r.
  apply pushParts_filter.
Qed.

Lemma normalize_text_object (item : value) :
  isNullish item = false -> typeof item = TObject ->
  isString (typeof (Get item (utf16 "text"))) = true ->
  normalizeItemForFrontend item
  = ret {| text := trim (stringOf (Get item (utf16 "text"))) |}.
Proof.
  intros Hn Ho Ht. unfold normalizeItemForFrontend.
  rewrite Hn, Ho, Ht. cbn [isString isObject negb].
  destruct (Get item (utf16 "text")); try discriminate. reflexivity.
Qed.

(** X6.  The Item Normalizer raises in one case only: the item is an
    object (or array) without a string [text] field, and one of its
    three domain fields is true and has a string coercion that raises.
    On null, undefined, strings, numbers, booleans and objects with a
    string [text] it always returns. *)
Theorem X6_normalizer_raises_iff (item : value) :
  normalizeItemForFrontend item = throw
  <-> (isNullish item = false /\ typeof item = TObject
       /\ isString (typeof (Get item (utf16 "text"))) = false
       /\ exists f, In f (domainFields item)
                    /\ ToBoolean f = true /\ ToString f = throw).
Proof.
  destruct (isNullish item) eqn:Hn.
  { split; [|intros [H _]; discriminate].
    unfold normalizeItemForFrontend. rewrite Hn. discriminate. }
  destruct (typeof item) eqn:Ho;
    try (split; [|intros [_ [H _]]; discriminate];
         destruct item as [| |b|n|s|l|props]; try discriminate;
         try (destruct b); discriminate).
  destruct (isString (typeof (Get item (utf16 "text")))) eqn:Ht.
  { split; [|intros [_ [_ [H _]]]; discriminate].
    rewrite normalize_text_object by assumption. discriminate. }
  rewrite normalize_object by assumption.
  split.
  - intros H. repeat split.
    destruct (mapM ToString (filter ToBoolean (domainFields item))) eqn:E;
      [discriminate|].
    apply mapM_throw_iff in E as [f [Hf Hs]]. apply filter_In in Hf as [Hf Hb].
    now exists f.
  - intros [_ [_ [_ [f [Hf [Hb Hs]]]]]].
    assert (E : mapM ToString (filter ToBoolean (domainFields item)) = throw).
    { apply mapM_throw_iff. exists f. split; [|assumption].
      apply filter_In. now split. }
    now rewrite E.
Qed.

(** X7.  What the Item Normalizer returns for a string, or for an
    object with a string [text] field, is a fixed point: normalizing
    the record [{text}] it returned gives that record again. *)
Theorem X7_normalizer_fixed_point (item : value) (c : Card) :
  isString (typeof item) = true
  \/ (isNullish item = false /\ typeof item = TObject
      /\ isString (typeof (Get item (utf16 "text"))) = true) ->
  normalizeItemForFrontend item = ret c ->
  normalizeItemForFrontend (VObj [(utf16 "text", VStr (text c))]) = ret c.
Proof.
  intros H Hc.
  assert (Ht : exists s, c = {| text := trim s |}).
  { destruct H as [H|[Hn [Ho Ht]]].
    - destruct item; try discriminate. injection Hc as <-. eauto.
    - rewrite normalize_text_object in Hc by assumption.
      injection Hc as <-. eauto. }
  destruct Ht as [s ->]. cbn [text].
  rewrite normalize_text_object; try reflexivity.
  change (Get (VObj [(utf16 "text", VStr (trim s))]) (utf16 "text"))
    with (@VStr number (trim s)).
  cbn [stringOf]. now rewrite trim_idem.
Qed.

Lemma mapM_elementText_strings (ss : list jsstring) :
  mapM elementText (map (fun s => @VStr number s) ss) = ret ss.
Proof.
  induction ss as [|s ss IH]; [reflexivity|].
  cbn [map mapM elementText]. unfold ret in *. now rewrite IH.
Qed.

(** On an array of strings the Outline Renderer never raises. *)
Lemma itemsToOutline_strings (ss : list jsstring) :
  itemsToOutline (VArr (map (fun s => @VStr number s) ss))
  = ret (join (js "\n") (map (fun s => utf16 "- " ++ trim s) ss)).
Proof.
  rewrite itemsToOutline_render. destruct ss as [|s ss]; [reflexivity|].
  change (map (fun s0 => @VStr number s0) (s :: ss))
    with (@VStr number s :: map (fun s0 => @VStr number s0) ss).
  cbn [render].
  change (@VStr number s :: map (fun s0 => @VStr number s0) ss)
    with (map (fun s0 => @VStr number s0) (s :: ss)).
  now rewrite mapM_elementText_strings.
Qed.

End MoreLeaves.

(** ** More of the Structured Response Parser *)

Section MoreParser.

Context {number : Type} {R : Runtime number}.

Local Notation value := (value number) (only parsing).

Lemma parseAIResponse_inv (text : jsstring) (r : ParsedResponse) :
  parseAIResponse text = ret r ->
  r = fallback (trim text) \/ tryBlock (stripFence (trim text)) = ret (Some r).
Proof.
  unfold parseAIResponse, try_catch, ret.
  destruct (tryBlock (stripFence (trim text))) as [[r'|]|];
    intros H; injection H as <-; auto.
Qed.

Lemma hasItems_inv (obj : value) :
  hasItems obj = true ->
  exists x l, Get obj (utf16 "items") = VArr (x :: l).
Proof.
  unfold hasItems, arrayLength. intros H. apply andb_true_iff in H as [Ha Hl].
  destruct (Get obj (utf16 "items")) as [| |b|n|s|l|props]; try discriminate.
  destruct l as [|x l]; [discriminate|]. eauto.
Qed.

Lemma visualCodeField_shape (obj v : value) :
  visualCodeField obj = ret v ->
  v = VNull \/ exists s, v = VStr s /\ s <> [] /\ trim s = s.
Proof.
  unfold visualCodeField, ret.
  destruct (isNullish _); cbn [negb]; [intros H; injection H as <-; now left|].
  destruct (ToString _) as [s|]; [|discriminate].
  destruct (Str.eqb (trim s) []) eqn:E; cbn [negb];
    intros H; injection H as <-; [now left|].
  right. exists (trim s). split; [reflexivity|]. split; [|apply trim_idem].
  intros H. apply eqb_nil in H. congruence.
Qed.

Lemma readObject_shape (obj : value) (r : ParsedResponse) :
  readObject obj = ret r ->
  (items r = VNull
   \/ exists x l, items r = VArr (x :: l)
                  /\ itemsToOutline (items r) = ret (outline r))
  /\ (visualCode r = VNull
      \/ exists s, visualCode r = VStr s /\ s <> [] /\ trim s = s).
Proof.
  unfold readObject. destruct (hasItems obj) eqn:Hh.
  - destruct (hasItems_inv obj Hh) as [x [l Hg]].
    destruct (itemsToOutline (Get obj (utf16 "items"))) as [o|] eqn:Ho;
      [|discriminate].
    destruct (visualCodeField obj) as [v|] eqn:Hv; [|discriminate].
    unfold ret. intros H. injection H as <-. cbn [items outline visualCode fst snd].
    split; [right; exists x, l; now rewrite Hg in * | now apply visualCodeField_shape with obj].
  - destruct (visualCodeField obj) as [v|] eqn:Hv; [|discriminate].
    unfold ret. intros H. injection H as <-. cbn [items outline visualCode fst snd].
    split; [now left | now apply visualCodeField_shape with obj].
Qed.

Lemma parseAIResponse_shape (text : jsstring) (r : ParsedResponse) :
  parseAIResponse text = ret r ->
  (items r = VNull
   \/ exists x l, items r = VArr (x :: l)
                  /\ itemsToOutline (items r) = ret (outline r))
  /\ (visualCode r = VNull
      \/ exists s, visualCode r = VStr s /\ s <> [] /\ trim s = s).
Proof.
  intros H. apply parseAIResponse_inv in H as [->|H].
  - split; now left.
  - unfold tryBlock in H.
    destruct (JSON_parse _) as [obj|]; [|discriminate].
    destruct (ToBoolean obj).
    + destruct (readObject obj) as [r'|] eqn:Hr; [|discriminate].
      destruct (_ || _); [|discriminate].
      unfold ret in H. injection H as <-. now apply readObject_shape with obj.
    + cbn in H. discriminate.
Qed.

(** X8.  Whatever the reply, the [items] the parser returns is either
    null or a non-empty array, and in the second case the [outline]
    returned with it is the Outline Renderer's output on that array. *)
Theorem X8_items_outline_invariant (text : jsstring) (r : ParsedResponse) :
  parseAIResponse text = ret r ->
  items r = VNull
  \/ exists x l, items r = VArr (x :: l)
                 /\ itemsToOutline (items r) = ret (outline r).
Proof. intros H. exact (proj1 (parseAIResponse_shape text r H)). Qed.

Lemma readObject_visualCode (obj : value) (r : ParsedResponse) :
  readObject obj = ret r -> visualCodeField obj = ret (visualCode r).
Proof.
  unfold readObject.
  destruct (if hasItems obj then _ else _) as [p|]; [|discriminate].
  destruct (visualCodeField obj) as [v|]; [|discriminate].
  unfold ret. intros H. now injection H as <-.
Qed.

Lemma visualCodeField_blank (obj : value) (s : jsstring) :
  ToString (Get obj (utf16 "visualCode")) = ret s -> trim s = [] ->
  visualCodeField obj = ret VNull.
Proof.
  intros Hs Hb. unfold visualCodeField.
  destruct (isNullish _); cbn [negb]; [reflexivity|].
  rewrite Hs. unfold ret. now rewrite Hb.
Qed.

(** X9.  Whatever the reply, the [visualCode] the parser returns is
    either null or a string that is not empty and is trimmed; and
    when the reply decodes to a value whose [visualCode], coerced to a
    string, is blank, the parser returns null for it. *)
Theorem X9_visualCode_invariant (text : jsstring) (r : ParsedResponse) :
  parseAIResponse text = ret r ->
  (visualCode r = VNull
   \/ exists s, visualCode r = VStr s /\ s <> [] /\ trim s = s)
  /\ (forall obj s,
        JSON_parse (stripFence (trim text)) = Some obj ->
        ToString (Get obj (utf16 "visualCode")) = ret s -> trim s = [] ->
        visualCode r = VNull).
Proof.
  intros H. split; [exact (proj2 (parseAIResponse_shape text r H))|].
  intros obj s Hp Hs Hb.
  apply parseAIResponse_inv in H as [->|H]; [reflexivity|].
  unfold tryBlock in H. rewrite Hp in H.
  destruct (ToBoolean obj).
  - destruct (readObject obj) as [r'|] eqn:Hr; [|discriminate].
    destruct (_ || _); [|discriminate].
    unfold ret in H. injection H as <-.
    apply readObject_visualCode in Hr.
    rewrite (visualCodeField_blank obj s Hs Hb) in Hr.
    unfold ret in Hr. now injection Hr as <-.
  - cbn in H. discriminate.
Qed.

(** X10.  White space before and after the reply has no effect on
    what the parser returns. *)
Theorem X10_surrounding_space_ignored (ws1 text ws2 : jsstring) :
  forallb isWhiteSpace ws1 = true -> forallb isWhiteSpace ws2 = true ->
  parseAIResponse (ws1 ++ text ++ ws2) = parseAIResponse text.
Proof.
  intros H1 H2. unfold parseAIResponse. now rewrite trim_pad.
Qed.

(** X11.  On a runtime whose decoder rejects the empty text, a reply
    of white space only (the empty reply among them) gives the record
    with empty outline and opening and null items and visualCode. *)
Theorem X11_blank_reply (text : jsstring) :
  JSON_parse [] = None ->
  forallb isWhiteSpace text = true ->
  parseAIResponse text
  = ret {| outline := []; opening := []; items := VNull; visualCode := VNull |}.
Proof.
  intros Hp Hw. unfold parseAIResponse. rewrite (trim_all_ws text Hw).
  change (stripFence []) with (@nil N). unfold tryBlock. rewrite Hp.
  reflexivity.
Qed.

Lemma yieldsNothing_non_object (v : value) :
  (forall props, v <> VObj props) -> yieldsNothing v = true.
Proof.
  intros H. unfold yieldsNothing, outlineField, openingField, hasItems.
  destruct v as [| |b|n|s|l|props]; cbn [Get typeof isString Array_isArray andb];
    try (now rewrite orb_true_r).
  now destruct (H props).
Qed.

(** X12.  A reply that decodes to a JSON value other than an object
    (an array of items, a string, a number, a boolean, null) is never
    used: the parser returns the splitter's sections of the trimmed
    raw text, with null items and visualCode. *)
Theorem X12_non_object_falls_back (text : jsstring) (v : value) :
  JSON_parse (stripFence (trim text)) = Some v ->
  (forall props, v <> VObj props) ->
  parseAIResponse text = ret (fallback (trim text)).
Proof.
  intros Hp Hv. apply parseAIResponse_fell_back.
  apply tryBlock_nothing with v; [assumption|].
  now apply yieldsNothing_non_object.
Qed.

(** ** The handler's response *)

Lemma orElse_visualCode (v : value) :
  (v = VNull \/ exists s, v = VStr s /\ s <> [] /\ trim s = s) ->
  exists s, orElse v (VStr []) = VStr s
            /\ (v = VNull -> s = []) /\ (forall t, v = VStr t -> s = t).
Proof.
  intros [->|[s [-> [Hs _]]]].
  - exists []. repeat split. intros t H. discriminate.
  - exists s. unfold orElse. cbn [ToBoolean].
    destruct (Str.eqb s []) eqn:E; [apply eqb_nil in E; contradiction|].
    repeat split; [discriminate|]. intros t H. now injection H.
Qed.

Lemma jsonResponse_no_items (reply : jsstring) (r : ParsedResponse) :
  parseAIResponse reply = ret r -> items r = VNull ->
  jsonResponse reply
  = ret {| res_outline := outline r; res_opening := opening r;
           res_items := None;
           res_visualCode := orElse (visualCode r) (VStr []) |}.
Proof.
  intros Hr Hi. unfold jsonResponse. rewrite Hr. unfold ret. cbn beta iota.
  now rewrite Hi.
Qed.

Lemma jsonResponse_items_step (reply : jsstring) (r : ParsedResponse) x l :
  parseAIResponse reply = ret r -> items r = VArr (x :: l) ->
  jsonResponse reply
  = (cards <- mapM normalizeItemForFrontend (x :: l) ;;
     ret {| res_outline :=
              join (js "\n") (map (fun c => utf16 "- " ++ trim (text c)) cards);
            res_opening := opening r;
            res_items := Some cards;
            res_visualCode := orElse (visualCode r) (VStr []) |}).
Proof.
  intros Hr Hi. unfold jsonResponse. rewrite Hr. unfold ret at 1.
  cbn beta iota. rewrite Hi.
  replace (Array_isArray (VArr (x :: l)) && (arrayLength (VArr (x :: l)) >? 0))
    with true
    by (unfold arrayLength; cbn [Array_isArray elements List.length andb];
        symmetry; apply Z.gtb_lt; lia).
  cbn [elements].
  destruct (mapM normalizeItemForFrontend (x :: l)) as [cards|]; [|reflexivity].
  unfold ret at 1. cbn beta iota.
  rewrite <- (map_map (fun c => text c) (fun s => @VStr number s)).
  rewrite itemsToOutline_strings, map_map. reflexivity.
Qed.

(** X14.  When the parser returns items and every item normalizes, the
    handler sends the normalized items, as many as the parser
    returned, and an outline rendered from their texts: one line
    [- text] per item, not the outline the parser rendered from the
    raw items. *)
Theorem X14_response_with_items
    (reply : jsstring) (r : ParsedResponse) (x : value) (l : list value)
    (cards : list Card) :
  parseAIResponse reply = ret r -> items r = VArr (x :: l) ->
  mapM normalizeItemForFrontend (x :: l) = ret cards ->
  jsonResponse reply
  = ret {| res_outline :=
             join (js "\n") (map (fun c => utf16 "- " ++ trim (text c)) cards);
           res_opening := opening r;
           res_items := Some cards;
           res_visualCode := orElse (visualCode r) (VStr []) |}
  /\ List.length cards = List.length (x :: l).
Proof.
  intros Hr Hi Hc. split; [|now apply mapM_length in Hc].
  rewrite (jsonResponse_items_step reply r x l Hr Hi). now rewrite Hc.
Qed.

(** X15.  The handler's computation of the response raises (and the
    handler answers with status 500) exactly when the parser returned
    items and the Item Normalizer raises on one of them; the parser
    itself never makes it raise. *)
Theorem X15_response_raises_iff (reply : jsstring) :
  jsonResponse reply = throw
  <-> exists r x l it,
        parseAIResponse reply = ret r /\ items r = VArr (x :: l)
        /\ In it (x :: l) /\ normalizeItemForFrontend it = throw.
Proof.
  destruct (parseAIResponse_total reply) as [r Hr].
  destruct (proj1 (parseAIResponse_shape reply r Hr)) as [Hi|[x [l [Hi _]]]].
  - rewrite (jsonResponse_no_items reply r Hr Hi). split; [discriminate|].
    intros [r' [x [l [it [Hr' [Hi' _]]]]]]. unfold ret in *. congruence.
  - rewrite (jsonResponse_items_step reply r x l Hr Hi). split.
    + intros H.
      destruct (mapM normalizeItemForFrontend (x :: l)) eqn:E; [discriminate|].
      apply mapM_throw_iff in E as [it [Hin Hit]]. now exists r, x, l, it.
    + intros [r' [x' [l' [it [Hr' [Hi' [Hin Hit]]]]]]].
      assert (r' = r) by (unfold ret in *; congruence). subst r'.
      assert (E : x' :: l' = x :: l) by congruence. rewrite E in Hin.
      assert (Hm : mapM normalizeItemForFrontend (x :: l) = throw)
        by (apply mapM_throw_iff; now exists it).
      now rewrite Hm.
Qed.

(** X16.  In every response the handler computes, [visualCode] is a
    string (the empty one when the parser returned null), [opening] is
    the parser's, and [items] is either undefined or a non-empty list;
    without items the outline is the parser's. *)
Theorem X16_response_shape (reply : jsstring) (res : JsonResponse) :
  jsonResponse reply = ret res ->
  exists r, parseAIResponse reply = ret r
    /\ res_opening res = opening r
    /\ (exists s, res_visualCode res = VStr s
                  /\ (visualCode r = VNull -> s = [])
                  /\ (forall t, visualCode r = VStr t -> s = t))
    /\ ((res_items res = None /\ items r = VNull /\ res_outline res = outline r)
        \/ exists c cs, res_items res = Some (c :: cs)).
Proof.
  intros H. destruct (parseAIResponse_total reply) as [r Hr]. exists r.
  split; [assumption|].
  destruct (parseAIResponse_shape reply r Hr) as [Hs Hv].
  apply orElse_visualCode in Hv.
  destruct Hs as [Hi|[x [l [Hi _]]]].
  - rewrite (jsonResponse_no_items reply r Hr Hi) in H.
    unfold ret in H. injection H as <-. cbn. repeat split; auto.
  - rewrite (jsonResponse_items_step reply r x l Hr Hi) in H.
    destruct (mapM normalizeItemForFrontend (x :: l)) as [cards|] eqn:E;
      [|discriminate].
    unfold ret in H. injection H as <-. cbn. repeat split; auto.
    right. apply mapM_length in E. destruct cards as [|c cs]; [discriminate|].
    eauto.
Qed.

(** ** The upstream callers *)

Lemma reply_text_iff (v : value) (s : jsstring) :
  (text <- trimOf (orElse v (VStr [])) ;;
   if Str.eqb text [] then throw else ret text) = ret s
  <-> exists c, v = VStr c /\ s = trim c /\ s <> [].
Proof.
  unfold orElse, ret, throw. split.
  - destruct v as [| |b|n|c|l|props]; cbn [ToBoolean trimOf];
      try discriminate;
      try (destruct b; discriminate);
      try (destruct (Number_toBoolean n); discriminate).
    destruct (negb (Str.eqb c [])); cbn [trimOf]; unfold ret.
    + destruct (Str.eqb (trim c) []) eqn:E; [discriminate|].
      intros H. injection H as <-. exists c. repeat split.
      intros H. apply eqb_nil in H. congruence.
    + discriminate.
  - intros [c [-> [-> Hne]]]. cbn [ToBoolean].
    destruct (Str.eqb c []) eqn:Ec.
    + apply eqb_nil in Ec. subst c. now destruct Hne.
    + cbn [negb trimOf]. unfold ret.
      destruct (Str.eqb (trim c) []) eqn:E; [apply eqb_nil in E; contradiction|].
      reflexivity.
Qed.

(** X17.  [refineWithDeepSeek] returns exactly when the answer is ok
    and [data.choices[0].message.content] is a string that is not blank,
    and what it returns is that string trimmed: never an empty text,
    never one with white space around it.  In every other case (a
    missing link of the chain, a content that is not a string, a blank
    content) it raises. *)
Theorem X17_deepseek_text (ok : bool) (data : value) (s : jsstring) :
  (refineWithDeepSeek ok data = ret s
   <-> ok = true /\ isNullish data = false
       /\ exists c, deepSeekContent data = VStr c /\ s = trim c /\ s <> [])
  /\ (refineWithDeepSeek ok data = ret s -> s <> [] /\ trim s = s).
Proof.
  assert (H : refineWithDeepSeek ok data = ret s
              <-> ok = true /\ isNullish data = false
                  /\ exists c, deepSeekContent data = VStr c /\ s = trim c /\ s <> []).
  { unfold refineWithDeepSeek. destruct ok; cbn [negb].
    - destruct (isNullish data).
      + split; [discriminate | intros [_ [H _]]; discriminate].
      + rewrite reply_text_iff. split; [now intros H | now intros [_ [_ H]]].
    - split; [discriminate | intros [H _]; discriminate]. }
  split; [exact H|]. intros Hs. apply H in Hs as [_ [_ [c [_ [-> Hne]]]]].
  split; [assumption | apply trim_idem].
Qed.

(** X18.  [refineWithOllama] returns exactly when the answer is ok and
    [data.response] is a string that is not blank, and what it returns
    is that string trimmed; in every other case it raises. *)
Theorem X18_ollama_text (ok : bool) (data : value) (s : jsstring) :
  (refineWithOllama ok data = ret s
   <-> ok = true /\ isNullish data = false
       /\ exists c, Get data (utf16 "response") = VStr c /\ s = trim c /\ s <> [])
  /\ (refineWithOllama ok data = ret s -> s <> [] /\ trim s = s).
Proof.
  assert (H : refineWithOllama ok data = ret s
              <-> ok = true /\ isNullish data = false
                  /\ exists c, Get data (utf16 "response") = VStr c
                               /\ s = trim c /\ s <> []).
  { unfold refineWithOllama. destruct ok; cbn [negb].
    - destruct (isNullish data).
      + split; [discriminate | intros [_ [H _]]; discriminate].
      + rewrite reply_text_iff. split; [now intros H | now intros [_ [_ H]]].
    - split; [discriminate | intros [H _]; discriminate]. }
  split; [exact H|]. intros Hs. apply H in Hs as [_ [_ [c [_ [-> Hne]]]]].
  split; [assumption | apply trim_idem].
Qed.

End MoreParser.

(** X19.  The address [refineWithDeepSeek] posts to is the same for a
    base written with and without one trailing slash; of several
    trailing slashes exactly one is removed. *)
Theorem X19_url_trailing_slash (b : jsstring) (c : N) :
  c <> 0x2F%N ->
  deepSeekUrl (b ++ [c]) = b ++ [c] ++ utf16 "/v1/chat/completions"
  /\ deepSeekUrl (b ++ [c] ++ utf16 "/") = deepSeekUrl (b ++ [c])
  /\ deepSeekUrl (b ++ [c] ++ utf16 "//")
     = b ++ [c] ++ utf16 "/" ++ utf16 "/v1/chat/completions".
Proof.
  intros Hc. apply N.eqb_neq in Hc.
  assert (H0 : stripSlash (b ++ [c]) = b ++ [c]).
  { unfold stripSlash. rewrite rev_app_distr. cbn [rev app]. now rewrite Hc. }
  assert (H1 : forall p, stripSlash (p ++ utf16 "/") = p).
  { intros p. unfold stripSlash. rewrite rev_app_distr.
    change (rev (utf16 "/")) with [0x2F%N]. cbn [app].
    rewrite N.eqb_refl. apply rev_involutive. }
  unfold deepSeekUrl. repeat split.
  - now rewrite H0, <- app_assoc.
  - now rewrite app_assoc, H1, H0.
  - change (utf16 "//") with (utf16 "/" ++ utf16 "/").
    rewrite !app_assoc, H1. now rewrite <- !app_assoc.
Qed.

(** ** Runs of the further properties on the concrete runtime *)

Section MoreRuns.

Local Notation value := (value Z) (only parsing).

Lemma X2_witness :
  parseClaudeResponse (js "Here it is: " ++ outlineMarker ++ js "\n- a\n- b\n")
  = {| sec_outline := js "- a\n- b"; sec_opening := [] |}.
Proof.
  exact (X2_outline_marker_only (js "Here it is: ") (js "\n- a\n- b\n")
           eq_refl eq_refl).
Defined.

Lemma X3_witness :
  parseClaudeResponse (js "one line only\n" ++ openMarker ++ js " Hello ")
  = {| sec_outline := js "one line only"; sec_opening := js "Hello" |}.
Proof.
  apply (X3_open_marker_no_cue (js "one line only\n") (js " Hello ")
           eq_refl eq_refl).
  intros m H. rewrite altMarkers_units in H.
  destruct H as [<-|[<-|[<-|[<-|[<-|[]]]]]]; reflexivity.
Defined.

(** The bullet cue occurs before the heading cue, and the heading cue
    is the one that cuts. *)
Lemma X4_witness :
  indexOf (js "x\n- y\n## 大纲 z") (js "\n- ") = 1
  /\ parseClaudeResponse (js "x\n- y\n## 大纲 z\n" ++ openMarker ++ js "Hi")
     = {| sec_outline := js "z"; sec_opening := js "Hi" |}.
Proof.
  split; [reflexivity|].
  apply (X4_cue_priority (js "x\n- y\n## 大纲 z\n") (js "Hi")
           [utf16 "大纲："] [utf16 "## 内容大纲"; js "\n- "; js "\n* "]
           (utf16 "## 大纲") (js "x\n- y\n") (js " z")
           eq_refl eq_refl eq_refl eq_refl eq_refl).
  intros m [<-|[]]. reflexivity.
Defined.

Lemma X5_witness :
  js "- a" = [] <-> Array_isArray (VArr [VStr (js "a")] : value) = false
                    \/ elements (VArr [VStr (js "a")] : value) = [].
Proof.
  exact (X5_outline_empty_iff (R := concrete) (VArr [VStr (js "a")]) (js "- a")
           eq_refl).
Defined.

(** A field that is an object with an own [toString]: the Normalizer
    raises. *)
Lemma X6_witness :
  normalizeItemForFrontend
    (VObj [(utf16 "core", VObj [(utf16 "toString", VNum 1%Z)])] : value)
  = throw.
Proof.
  apply (proj2 (X6_normalizer_raises_iff (R := concrete)
                  (VObj [(utf16 "core", VObj [(utf16 "toString", VNum 1%Z)])]))).
  repeat split.
  exists (VObj [(utf16 "toString", VNum 1%Z)]).
  repeat split. left. reflexivity.
Defined.

Lemma X7_witness :
  normalizeItemForFrontend (VStr (js "  hi  ") : value) = ret {| text := js "hi" |}
  /\ normalizeItemForFrontend (VObj [(utf16 "text", VStr (js "hi"))] : value)
     = ret {| text := js "hi" |}.
Proof.
  split; [reflexivity|].
  exact (X7_normalizer_fixed_point (R := concrete) (VStr (js "  hi  "))
           {| text := js "hi" |} (or_introl eq_refl) eq_refl).
Defined.

Lemma X8_witness :
  let r : ParsedResponse (number := Z) :=
    {| outline := js "- a"; opening := []; items := VArr [VStr (js "a")];
       visualCode := VNull |} in
  parseAIResponse (js "{'items':['a']}") = ret r
  /\ (items r = VNull
      \/ exists x l, items r = VArr (x :: l)
                     /\ itemsToOutline (items r) = ret (outline r)).
Proof.
  split; [vm_compute; reflexivity|].
  apply (X8_items_outline_invariant (R := concrete) (js "{'items':['a']}")).
  vm_compute. reflexivity.
Defined.

(** A [visualCode] with text, returned trimmed; and a blank one,
    returned as null. *)
Lemma X9_witness :
  let r : ParsedResponse (number := Z) :=
    {| outline := []; opening := js "o"; items := VNull;
       visualCode := VStr (js "graph TD") |} in
  let blank := js "{'opening':'o','visualCode':'   '}" in
  (parseAIResponse (js "{'opening':'o','visualCode':'  graph TD  '}") = ret r
   /\ (visualCode r = VNull
       \/ exists s, visualCode r = VStr s /\ s <> [] /\ trim s = s))
  /\ (forall rb : ParsedResponse (number := Z),
         parseAIResponse blank = ret rb -> visualCode rb = VNull)
  /\ parseAIResponse blank
     = ret {| outline := []; opening := js "o"; items := (VNull : value);
              visualCode := VNull |}.
Proof.
  split; [split; [vm_compute; reflexivity|]|split].
  - apply (proj1 (X9_visualCode_invariant (R := concrete)
                    (js "{'opening':'o','visualCode':'  graph TD  '}") _
                    ltac:(vm_compute; reflexivity))).
  - intros rb Hrb.
    apply (proj2 (X9_visualCode_invariant (R := concrete)
                    (js "{'opening':'o','visualCode':'   '}") rb Hrb)
             (VObj [(utf16 "opening", VStr (js "o"));
                    (utf16 "visualCode", VStr (js "   "))])
             (js "   ")).
    + vm_compute. reflexivity.
    + reflexivity.
    + reflexivity.
  - vm_compute. reflexivity.
Defined.

Lemma X10_witness :
  parseAIResponse (R := concrete) (js "\n  {'opening':'o'} \n")
  = parseAIResponse (js "{'opening':'o'}").
Proof.
  exact (X10_surrounding_space_ignored (R := concrete) (js "\n  ")
           (js "{'opening':'o'}") (js " \n") eq_refl eq_refl).
Defined.

Lemma X11_witness :
  parseAIResponse (R := concrete) (js " \n ")
  = ret {| outline := []; opening := []; items := VNull; visualCode := VNull |}.
Proof.
  exact (X11_blank_reply (R := concrete) (js " \n ") eq_refl eq_refl).
Defined.

(** A reply that is a JSON array of items is split as prose. *)
Lemma X12_witness :
  parseAIResponse (R := concrete) (js "['a','b']")
  = ret {| outline := js "['a'"; opening := js "['a','b']"; items := VNull;
           visualCode := VNull |}.
Proof.
  apply (X12_non_object_falls_back (R := concrete) (js "['a','b']")
           (VArr [VStr (js "a"); VStr (js "b")])).
  - vm_compute. reflexivity.
  - intros props H. discriminate.
Defined.

Lemma X13_witness :
  stripFence (trim (js "```json\n{'opening':'o'}")) = js "{'opening':'o'}"
  /\ stripFence (trim (js "{'opening':'o'}\n```")) = js "{'opening':'o'}".
Proof.
  exact (X13_one_sided_fence (utf16 "json") (js "\n") (js "'opening':'o'")
           (js "\n") (or_intror eq_refl) eq_refl eq_refl).
Defined.

(** The parser renders the raw record, the handler its normalized
    text. *)
Lemma X14_witness :
  let reply := js "{'items':[{'核心金句':'A','逻辑拆解':'B'}]}" in
  option_map outline (parseAIResponse (R := concrete) reply)
  = Some (js "- [object Object]")
  /\ jsonResponse (R := concrete) reply
     = ret {| res_outline := js "- A\nB"; res_opening := [];
              res_items := Some [{| text := js "A\nB" |}];
              res_visualCode := VStr [] |}.
Proof.
  split; [vm_compute; reflexivity|].
  refine (proj1 (X14_response_with_items (R := concrete)
                   (js "{'items':[{'核心金句':'A','逻辑拆解':'B'}]}")
                   {| outline := js "- [object Object]"; opening := [];
                      items := VArr [VObj [(key_core, VStr (js "A"));
                                           (key_logic, VStr (js "B"))]];
                      visualCode := VNull |}
                   (VObj [(key_core, VStr (js "A")); (key_logic, VStr (js "B"))])
                   [] [{| text := js "A\nB" |}] _ _ _)).
  - vm_compute. reflexivity.
  - reflexivity.
  - vm_compute. reflexivity.
Defined.

(** The parser returns on this reply, and the handler's computation
    raises. *)
Lemma X15_witness :
  let reply := js "{'items':[{'core':{'toString':1}}]}" in
  option_map outline (parseAIResponse (R := concrete) reply)
  = Some (js "- [object Object]")
  /\ jsonResponse (R := concrete) reply = throw.
Proof.
  split; [vm_compute; reflexivity|].
  apply (proj2 (X15_response_raises_iff (R := concrete)
                  (js "{'items':[{'core':{'toString':1}}]}"))).
  eexists. eexists. eexists. eexists.
  split; [vm_compute; reflexivity|].
  split; [reflexivity|]. split; [left; reflexivity|].
  vm_compute. reflexivity.
Defined.

Lemma X16_witness :
  let reply := js "{'summary':'s','outline':'- a'}" in
  let res : JsonResponse (number := Z) :=
    {| res_outline := js "- a"; res_opening := js "s"; res_items := None;
       res_visualCode := VStr [] |} in
  jsonResponse reply = ret res
  /\ exists r, parseAIResponse reply = ret r
       /\ res_opening res = opening r
       /\ (exists s, res_visualCode res = VStr s
                     /\ (visualCode r = VNull -> s = [])
                     /\ (forall t, visualCode r = VStr t -> s = t))
       /\ ((res_items res = None /\ items r = VNull
            /\ res_outline res = outline r)
           \/ exists c cs, res_items res = Some (c :: cs)).
Proof.
  split; [vm_compute; reflexivity|].
  apply (X16_response_shape (R := concrete) (js "{'summary':'s','outline':'- a'}")).
  vm_compute. reflexivity.
Defined.

Lemma X17_witness :
  refineWithDeepSeek (R := concrete) true
    (VObj [(utf16 "choices",
            VArr [VObj [(utf16 "message",
                         VObj [(utf16 "content", VStr (js " hi\n"))])]])])
  = ret (js "hi").
Proof.
  apply (proj2 (proj1 (X17_deepseek_text (R := concrete) true _ (js "hi")))).
  split; [reflexivity|]. split; [reflexivity|].
  exists (js " hi\n"). split; [reflexivity|]. split; [reflexivity|discriminate].
Defined.

Lemma X18_witness :
  refineWithOllama (R := concrete) true
    (VObj [(utf16 "response", VStr (js " hi\n"))])
  = ret (js "hi").
Proof.
  apply (proj2 (proj1 (X18_ollama_text (R := concrete) true _ (js "hi")))).
  split; [reflexivity|]. split; [reflexivity|].
  exists (js " hi\n"). split; [reflexivity|]. split; [reflexivity|discriminate].
Defined.

Lemma X19_witness :
  deepSeekUrl (js "https://api.deepseek.com")
  = js "https://api.deepseek.com/v1/chat/completions"
  /\ deepSeekUrl (js "https://api.deepseek.com/")
     = deepSeekUrl (js "https://api.deepseek.com")
  /\ deepSeekUrl (js "https://api.deepseek.com//")
     = js "https://api.deepseek.com//v1/chat/completions".
Proof.
  refine (X19_url_trailing_slash (js "https://api.deepseek.co") 0x6D%N _).
  discriminate.
Defined.

End MoreRuns.
